(** * HeartDiseaseETL: a shallow embedding of [etl_pipeline/pipeline.py]

    The pipeline is a Python class whose methods act on pandas data frames.
    Python variables hold references to data frames, and some pandas calls
    return a new frame ([drop_duplicates], [dropna]) while others update
    the frame they are called on ([replace(..., inplace=True)],
    [df[col] = ...]).  The embedding therefore keeps an explicit store of
    frames, a log, and the relational store, and threads them through a
    state-and-exception monad.

    What pandas, ucimlrepo and SQLAlchemy compute is not part of the
    repository.  The row-level operations (duplicate removal, replacement,
    dropping of missing rows, column access) are written out on the data
    model; the parsers of numbers and dates, and the outcome of network and
    database calls, are taken as an interface ([Library]). *)

From Stdlib Require Import ZArith Ascii String.
From stdpp Require Import base option list strings gmap.

Local Open Scope string_scope.
#[local] Set Warnings "-clear-no-such-hyp".

(** ** Python exceptions and results *)

(** An instance of a subclass of Python's [Exception]. *)
Record exn := Exception { exn_class : string; exn_msg : string }.

Inductive Result (A : Type) : Type :=
| Ok (a : A)
| Raised (e : exn).
Arguments Ok {A} a.
Arguments Raised {A} e.

Definition result_map {A B} (f : A → B) (r : Result A) : Result B :=
  match r with
  | Ok a => Ok (f a)
  | Raised e => Raised e
  end.

(** Left-to-right conversion of a sequence, stopping at the first error. *)
Fixpoint result_mapM {A B} (f : A → Result B) (l : list A) : Result (list B) :=
  match l with
  | [] => Ok []
  | x :: l' =>
      match f x with
      | Raised e => Raised e
      | Ok y =>
          match result_mapM f l' with
          | Raised e => Raised e
          | Ok ys => Ok (y :: ys)
          end
      end
  end.

(** ** Strings: [str.lower] and the [in] operator *)

Definition lower_ascii (a : ascii) : ascii :=
  let n := nat_of_ascii a in
  if (65 <=? n)%nat && (n <=? 90)%nat then ascii_of_nat (n + 32) else a.

(** [s.lower()] on the ASCII range. *)
Fixpoint lower (s : string) : string :=
  match s with
  | EmptyString => EmptyString
  | String a s' => String (lower_ascii a) (lower s')
  end.

(** [needle in s] for strings: [needle] occurs as a substring of [s]. *)
Fixpoint contains (needle s : string) : bool :=
  String.prefix needle s ||
  match s with
  | EmptyString => false
  | String _ s' => contains needle s'
  end.

(** The test of line 79: ['date' in col.lower()]. *)
Definition is_date_column (col : string) : bool := contains "date" (lower col).

(** ** Calendar dates and [strftime('%Y-%m-%d')] *)

Record Date := mkDate { year : nat; month : nat; day : nat }.

Definition digit (n : nat) : ascii := ascii_of_nat (48 + n mod 10).

Definition pad2 (n : nat) : string :=
  String (digit (n / 10)) (String (digit n) EmptyString).

Definition pad4 (n : nat) : string :=
  String (digit (n / 1000)) (String (digit (n / 100)) (pad2 n)).

(** [%Y-%m-%d]: four digits of year, two of month, two of day. *)
Definition strftime_ymd (d : Date) : string :=
  pad4 (year d) ++ "-" ++ pad2 (month d) ++ "-" ++ pad2 (day d).

(** ** Data model *)

Section DataModel.
Context {Num : Type} `{EqDecision Num}.

(** A cell of a data frame: text, a number, or a missing value
    ([pd.NA], [NaN], [None], [NaT]), which pandas treats alike in
    [dropna] and [drop_duplicates]. *)
Inductive Cell : Type :=
| CStr (s : string)
| CNum (n : Num)
| CNA.

#[export] Instance Cell_eq_dec : EqDecision Cell.
Proof. solve_decision. Defined.

(** A row: one cell per column. *)
Local Abbreviation Row := (list Cell).

(** A data frame: the column labels in order and the rows in order.
    The row labels (the index) are not represented; no operation of the
    pipeline depends on them. *)
Record Table : Type := mkTable { columns : list string; rows : list Row }.

(** The data model of the pipeline: column names are unique, every row
    has one cell per column, and a frame without columns has no rows. *)
Definition wf_table (t : Table) : Prop :=
  NoDup (columns t) ∧
  Forall (λ r : Row, length r = length (columns t)) (rows t) ∧
  (columns t = [] → rows t = []).

Definition isna (c : Cell) : bool :=
  match c with CNA => true | _ => false end.

(** *** [DataFrame.drop_duplicates()] with the default [keep='first'] *)

(** [seen] holds the rows met so far; a row is kept when it is not among
    them. *)
Fixpoint drop_duplicates_from (seen : list Row) (rs : list Row) : list Row :=
  match rs with
  | [] => []
  | r :: rs' =>
      if decide (r ∈ seen) then drop_duplicates_from seen rs'
      else r :: drop_duplicates_from (r :: seen) rs'
  end.

Definition table_drop_duplicates (t : Table) : Table :=
  mkTable (columns t) (drop_duplicates_from [] (rows t)).

(** *** [DataFrame.replace(to_replace, value)] *)

Definition replace_cell (to_replace value c : Cell) : Cell :=
  if decide (c = to_replace) then value else c.

Definition table_replace (to_replace value : Cell) (t : Table) : Table :=
  mkTable (columns t) (map (map (replace_cell to_replace value)) (rows t)).

(** *** [DataFrame.dropna()]: keep the rows without a missing value *)

Definition row_notna (r : Row) : bool := forallb (λ c, negb (isna c)) r.

Definition table_dropna (t : Table) : Table :=
  mkTable (columns t) (filter (λ r, row_notna r = true) (rows t)).

(** A row is clean when it holds neither a missing value nor the
    sentinel ["?"]. *)
Definition clean_row (r : Row) : bool :=
  forallb (λ c, negb (isna c) && negb (bool_decide (c = CStr "?"))) r.

(** *** [df[col]] and [df[col] = values] *)

Fixpoint index_of (c : string) (cs : list string) : option nat :=
  match cs with
  | [] => None
  | c' :: cs' => if decide (c' = c) then Some 0 else S <$> index_of c cs'
  end.

Definition cell_at (j : nat) (r : Row) : Cell := default CNA (r !! j).

(** The values of column [c], in row order; [None] when there is no such
    column (pandas raises [KeyError]). *)
Definition table_getitem (t : Table) (c : string) : option (list Cell) :=
  j ← index_of c (columns t); Some (map (cell_at j) (rows t)).

(** [df[c] = vals] where [vals] is a Series over the rows of [df]:
    assignment to an existing column replaces its values row by row,
    assignment to a new label appends a column.  pandas aligns the Series
    with the rows of the frame; a row without a value receives a missing
    value. *)
Definition table_setitem (t : Table) (c : string) (vals : list Cell) : Table :=
  match index_of c (columns t) with
  | Some j =>
      mkTable (columns t)
        (imap (λ i (r : Row), <[j := default CNA (vals !! i)]> r) (rows t))
  | None =>
      mkTable (columns t ++ [c])%list
        (imap (λ i (r : Row), (r ++ [default CNA (vals !! i)])%list) (rows t))
  end.

End DataModel.

Arguments Cell Num : clear implicits.
Arguments Table Num : clear implicits.

Abbreviation Row Num := (list (Cell Num)) (only parsing).

(** ** The libraries the pipeline calls *)

(** A SQLAlchemy engine, bound to the URI it was created from. *)
Record Engine := mkEngine { engine_url : string }.

(** What the code takes from pandas, ucimlrepo and SQLAlchemy without the
    repository defining it. *)
Class Library (Num : Type) := {
  (** The number a string denotes for [pd.to_numeric], or the exception
      raised for it. *)
  parse_numeric : string → Result Num;
  (** [pd.to_datetime(s, errors='coerce').dt]: one optional date per value
      of the Series ([None] is [NaT]), or the exception raised by the
      call. *)
  to_datetime_coerce : list (Cell Num) → Result (list (option Date));
  to_datetime_coerce_length :
    ∀ s ds, to_datetime_coerce s = Ok ds → length ds = length s;
  (** [fetch_ucirepo(id=...).data.original] *)
  fetch_ucirepo : Z → Result (Table Num);
  (** [create_engine(uri)] *)
  create_engine : string → Result Engine;
  (** The exception, if any, with which the store answers the write of a
      table. *)
  to_sql_failure : Engine → string → Table Num → option exn;
}.

(** ** Log records *)

Inductive Level := INFO | WARNING | ERROR.

(** The messages of the pipeline, with the values they interpolate. *)
Inductive Message :=
| MsgExtracting
| MsgExtracted (nrows ncols : nat)
| MsgTransforming
| MsgRemovedDuplicates (n : Z)
| MsgRemaining (nrows : nat)
| MsgNotNumeric (col : string)
| MsgDateStandardized (col : string)
| MsgDateFailed (col : string) (e : exn)
| MsgLoading
| MsgLoaded (table : string)
| MsgLoadFailed (e : exn)
| MsgStarting
| MsgCompleted.

Definition LogRecord : Type := Level * Message.

(** ** State and the monad of Python computations *)

Section Pipeline.
Context {Num : Type} `{EqDecision Num} `{!Library Num}.

(** A reference to a data frame. *)
Definition ref : Type := nat.

Record World : Type := mkWorld {
  heap : list (Table Num);            (* the live data frames *)
  log : list LogRecord;               (* what [logging] has emitted *)
  database : gmap string (Table Num); (* the tables of the store *)
}.

Definition M (A : Type) : Type := World → Result A * World.

Definition ret {A} (a : A) : M A := λ w, (Ok a, w).

Definition bind {A B} (m : M A) (f : A → M B) : M B :=
  λ w, match m w with
       | (Ok a, w') => f a w'
       | (Raised e, w') => (Raised e, w')
       end.

Definition raise {A} (e : exn) : M A := λ w, (Raised e, w).

(** [try: body except Exception as e: handler(e)] *)
Definition try_except {A} (body : M A) (handler : exn → M A) : M A :=
  λ w, match body w with
       | (Ok a, w') => (Ok a, w')
       | (Raised e, w') => handler e w'
       end.

#[export] Instance M_ret : MRet M := @ret.
#[export] Instance M_bind : MBind M := λ A B f m, bind m f.

Definition lift_result {A} (r : Result A) : M A :=
  match r with
  | Ok a => ret a
  | Raised e => raise e
  end.

(** [for x in xs: body(x)] *)
Fixpoint for_each {A} (xs : list A) (body : A → M ()) : M () :=
  match xs with
  | [] => ret ()
  | x :: xs' => body x ;; for_each xs' body
  end.

(** *** The store of data frames *)

Definition InvalidReference : exn := Exception "ReferenceError" "no such frame".

Definition deref (df : ref) : M (Table Num) :=
  λ w, match heap w !! df with
       | Some t => (Ok t, w)
       | None => (Raised InvalidReference, w)
       end.

(** A new frame, referenced by no variable so far. *)
Definition alloc (t : Table Num) : M ref :=
  λ w, (Ok (length (heap w)),
        mkWorld (heap w ++ [t]) (log w) (database w)).

(** Update of the frame behind [df], seen through every reference to it. *)
Definition assign (df : ref) (t : Table Num) : M () :=
  λ w, (Ok (), mkWorld (<[df := t]> (heap w)) (log w) (database w)).

(** *** [logging] *)

Definition logging (lvl : Level) (msg : Message) : M () :=
  λ w, (Ok (), mkWorld (heap w) (log w ++ [(lvl, msg)]) (database w)).

Definition logging_info := logging INFO.
Definition logging_warning := logging WARNING.
Definition logging_error := logging ERROR.

(** *** The pandas calls of the pipeline *)

(** [df.shape[0]] *)
Definition shape0 (df : ref) : M nat :=
  t ← deref df; mret (length (rows t)).

(** [df.shape[1]] *)
Definition shape1 (df : ref) : M nat :=
  t ← deref df; mret (length (columns t)).

(** [df.drop_duplicates()]: a new frame. *)
Definition drop_duplicates (df : ref) : M ref :=
  t ← deref df; alloc (table_drop_duplicates t).

(** [df.replace(to_replace, value, inplace=True)]: updates [df]. *)
Definition replace_inplace (df : ref) (to_replace value : Cell Num) : M () :=
  t ← deref df; assign df (table_replace to_replace value t).

(** [df.dropna()]: a new frame. *)
Definition dropna (df : ref) : M ref :=
  t ← deref df; alloc (table_dropna t).

(** [df.columns] *)
Definition df_columns (df : ref) : M (list string) :=
  t ← deref df; mret (columns t).

(** [df[col]] *)
Definition getitem (df : ref) (col : string) : M (list (Cell Num)) :=
  t ← deref df;
  match table_getitem t col with
  | Some s => mret s
  | None => raise (Exception "KeyError" col)
  end.

(** [df[col] = vals]: updates [df]. *)
Definition setitem (df : ref) (col : string) (vals : list (Cell Num)) : M () :=
  t ← deref df; assign df (table_setitem t col vals).

(** One value under [pd.to_numeric]: text is parsed, a number and a
    missing value stay. *)
Definition numeric_of_cell (c : Cell Num) : Result (Cell Num) :=
  match c with
  | CStr s => result_map CNum (parse_numeric s)
  | CNum n => Ok (CNum n)
  | CNA => Ok CNA
  end.

(** [pd.to_numeric(s)] with the default [errors='raise']. *)
Definition to_numeric (s : list (Cell Num)) : M (list (Cell Num)) :=
  lift_result (result_mapM numeric_of_cell s).

(** [pd.to_datetime(s, errors='coerce').dt] *)
Definition to_datetime_dt (s : list (Cell Num)) : M (list (option Date)) :=
  lift_result (to_datetime_coerce s).

(** [.strftime('%Y-%m-%d')] of one value; [NaT] gives a missing value. *)
Definition strftime_cell (d : option Date) : Cell Num :=
  match d with
  | Some d => CStr (strftime_ymd d)
  | None => CNA
  end.

Definition dt_strftime (ds : list (option Date)) : list (Cell Num) :=
  map strftime_cell ds.

End Pipeline.

Arguments World Num : clear implicits.


(** ** The class [HeartDiseaseETL] *)

(** The attributes set by [__init__]. *)
Record HeartDiseaseETL := mkETL {
  db_uri : string;
  table_name : string;
  data_id : Z;
}.

(** [HeartDiseaseETL(db_uri)] with the default arguments of [__init__]. *)
Definition default_etl (uri : string) : HeartDiseaseETL :=
  mkETL uri "heart_disease" 45.

Section ETL.
Context {Num : Type} `{EqDecision Num} `{!Library Num}.

(** [df.to_sql(name, engine, if_exists="replace", index=False)] *)
Definition to_sql (df : ref) (name : string) (engine : Engine) : M () :=
  t ← deref df;
  match to_sql_failure engine name t with
  | Some e => raise e
  | None => λ w, (Ok (), mkWorld (heap w) (log w) (<[name := t]> (database w)))
  end.

Definition extract (self : HeartDiseaseETL) : M ref :=
  logging_info MsgExtracting ;;
  original ← lift_result (fetch_ucirepo (data_id self));
  df ← alloc original;
  nrows ← shape0 df;
  ncols ← shape1 df;
  logging_info (MsgExtracted nrows ncols) ;;
  mret df.

(** The body of the first loop of [transform] (lines 73-76). *)
Definition numeric_body (df : ref) (col : string) : M () :=
  try_except
    (s ← getitem df col;
     v ← to_numeric s;
     setitem df col v)
    (λ _, logging_warning (MsgNotNumeric col)).

(** The body of the second loop of [transform] (lines 81-85). *)
Definition date_body (df : ref) (col : string) : M () :=
  try_except
    (s ← getitem df col;
     ds ← to_datetime_dt s;
     setitem df col (dt_strftime ds) ;;
     logging_info (MsgDateStandardized col))
    (λ e, logging_warning (MsgDateFailed col e)).

Definition transform (self : HeartDiseaseETL) (df : ref) : M ref :=
  logging_info MsgTransforming ;;
  (* Remove duplicates *)
  initial_rows ← shape0 df;
  df ← drop_duplicates df;
  nrows ← shape0 df;
  logging_info (MsgRemovedDuplicates (Z.of_nat initial_rows - Z.of_nat nrows)) ;;
  (* Handle missing values *)
  replace_inplace df (CStr "?") CNA ;;
  df ← dropna df;
  nrows ← shape0 df;
  logging_info (MsgRemaining nrows) ;;
  (* Convert columns to numeric where possible *)
  cols ← df_columns df;
  for_each cols (numeric_body df) ;;
  (* Standardize date columns (if any) *)
  cols ← df_columns df;
  let date_cols := filter (λ col, is_date_column col = true) cols in
  for_each date_cols (date_body df) ;;
  mret df.

Definition load (self : HeartDiseaseETL) (df : ref) : M () :=
  logging_info MsgLoading ;;
  try_except
    (engine ← lift_result (create_engine (db_uri self));
     to_sql df (table_name self) engine ;;
     logging_info (MsgLoaded (table_name self)))
    (λ e, logging_error (MsgLoadFailed e)).

(** What the [try] block of [load] comes to in the world [w]: the table
    written, or the exception that ends the block. *)
Definition load_attempt (self : HeartDiseaseETL) (df : ref) (w : World Num)
    : Result (Table Num) :=
  match create_engine (db_uri self) with
  | Raised e => Raised e
  | Ok engine =>
      match heap w !! df with
      | None => Raised InvalidReference
      | Some t =>
          match to_sql_failure engine (table_name self) t with
          | Some e => Raised e
          | None => Ok t
          end
      end
  end.

Definition run (self : HeartDiseaseETL) : M () :=
  logging_info MsgStarting ;;
  raw_df ← extract self;
  cleaned_df ← transform self raw_df;
  load self cleaned_df ;;
  logging_info MsgCompleted.

End ETL.

(** ** The five steps as functions on tables *)

(** The specification (§4.2) describes [transform] as five steps, each a
    function from tables to tables, applied in a fixed order.  These are
    the steps in that form; [transform_run] relates them to the
    imperative code above. *)

Section Steps.
Context {Num : Type} `{EqDecision Num} `{!Library Num}.

(** Step 1: remove rows that duplicate an earlier row. *)
Definition step_deduplicate (t : Table Num) : Table Num :=
  table_drop_duplicates t.

(** Step 2: replace every cell equal to ["?"] with a missing marker. *)
Definition step_normalize_missing (t : Table Num) : Table Num :=
  table_replace (CStr "?") CNA t.

(** Step 3: drop the rows that contain a missing marker. *)
Definition step_drop_missing (t : Table Num) : Table Num :=
  table_dropna t.

(** What the attempt to convert column [c] yields: the converted values,
    or the exception that ends the attempt. *)
Definition numeric_attempt (t : Table Num) (c : string) : Result (list (Cell Num)) :=
  match table_getitem t c with
  | Some s => result_mapM numeric_of_cell s
  | None => Raised (Exception "KeyError" c)
  end.

Definition numeric_column (t : Table Num) (c : string) : Table Num :=
  match numeric_attempt t c with
  | Ok v => table_setitem t c v
  | Raised _ => t
  end.

Definition numeric_message (t : Table Num) (c : string) : list LogRecord :=
  match numeric_attempt t c with
  | Ok _ => []
  | Raised _ => [(WARNING, MsgNotNumeric c)]
  end.

Definition date_attempt (t : Table Num) (c : string) : Result (list (Cell Num)) :=
  match table_getitem t c with
  | Some s => result_map dt_strftime (to_datetime_coerce s)
  | None => Raised (Exception "KeyError" c)
  end.

Definition date_column (t : Table Num) (c : string) : Table Num :=
  match date_attempt t c with
  | Ok v => table_setitem t c v
  | Raised _ => t
  end.

Definition date_message (t : Table Num) (c : string) : list LogRecord :=
  match date_attempt t c with
  | Ok _ => [(INFO, MsgDateStandardized c)]
  | Raised e => [(WARNING, MsgDateFailed c e)]
  end.

(** The records logged while the columns [cs] are treated in turn, each
    on the table its predecessors left. *)
Fixpoint loop_log (f : Table Num → string → Table Num)
    (msg : Table Num → string → list LogRecord)
    (t : Table Num) (cs : list string) : list LogRecord :=
  match cs with
  | [] => []
  | c :: cs' => msg t c ++ loop_log f msg (f t c) cs'
  end.

(** Step 4: numeric coercion, column by column. *)
Definition step_numeric_coercion (t : Table Num) : Table Num :=
  foldl numeric_column t (columns t).

Definition date_columns (t : Table Num) : list string :=
  filter (λ col, is_date_column col = true) (columns t).

(** Step 5: date normalization of the date-named columns. *)
Definition step_date_normalization (t : Table Num) : Table Num :=
  foldl date_column t (date_columns t).

Definition steps_1_to_3 (t : Table Num) : Table Num :=
  step_drop_missing (step_normalize_missing (step_deduplicate t)).

Definition steps_1_to_4 (t : Table Num) : Table Num :=
  step_numeric_coercion (steps_1_to_3 t).

Definition transform_steps (t : Table Num) : Table Num :=
  step_date_normalization (steps_1_to_4 t).

(** The records [transform] logs for the input table [t]. *)
Definition transform_log (t : Table Num) : list LogRecord :=
  [(INFO, MsgTransforming);
   (INFO, MsgRemovedDuplicates
            (Z.of_nat (length (rows t))
             - Z.of_nat (length (rows (step_deduplicate t)))));
   (INFO, MsgRemaining (length (rows (steps_1_to_3 t))))]
  ++ loop_log numeric_column numeric_message
       (steps_1_to_3 t) (columns (steps_1_to_3 t))
  ++ loop_log date_column date_message
       (steps_1_to_4 t) (date_columns (steps_1_to_4 t)).

(** The rows of a table that hold a cell equal to the sentinel. *)
Definition has_sentinel (t : Table Num) : Prop :=
  ∃ r, r ∈ rows t ∧ CStr "?" ∈ r.

End Steps.

(** ** A small library instance for running the pipeline *)

(** An instance of [Library] over the integers: decimal integer literals
    with an optional sign are numbers, dates are written [YYYY-MM-DD] or
    [MM/DD/YYYY], and the store accepts writes through [postgresql://]
    engines only.  It stands for the libraries on the inputs of the
    examples below. *)
Module TestLibrary.

Definition digit_value (a : ascii) : option nat :=
  let n := nat_of_ascii a in
  if (48 <=? n)%nat && (n <=? 57)%nat then Some (n - 48) else None.

Fixpoint digits_value (acc : nat) (s : string) : option nat :=
  match s with
  | EmptyString => Some acc
  | String a s' => d ← digit_value a; digits_value (10 * acc + d) s'
  end.

Definition natural (s : string) : option nat :=
  match s with
  | EmptyString => None
  | _ => digits_value 0 s
  end.

Definition integer (s : string) : option Z :=
  match s with
  | String "-" s' => (λ n, Z.opp (Z.of_nat n)) <$> natural s'
  | String "+" s' => Z.of_nat <$> natural s'
  | _ => Z.of_nat <$> natural s
  end.

Definition test_parse_numeric (s : string) : Result Z :=
  match integer s with
  | Some z => Ok z
  | None => Raised (Exception "ValueError" ("Unable to parse string " ++ s))
  end.

Definition date_of_text (s : string) : option Date :=
  if decide (String.length s = 10%nat) then
    if decide (String.get 4 s = Some "-"%char ∧ String.get 7 s = Some "-"%char) then
      y ← natural (substring 0 4 s);
      m ← natural (substring 5 2 s);
      d ← natural (substring 8 2 s);
      Some (mkDate y m d)
    else if decide (String.get 2 s = Some "/"%char ∧ String.get 5 s = Some "/"%char) then
      m ← natural (substring 0 2 s);
      d ← natural (substring 3 2 s);
      y ← natural (substring 6 4 s);
      Some (mkDate y m d)
    else None
  else None.

Definition date_of_cell (c : Cell Z) : option Date :=
  match c with
  | CStr s => date_of_text s
  | _ => None
  end.

Definition test_to_datetime_coerce (s : list (Cell Z)) : Result (list (option Date)) :=
  Ok (map date_of_cell s).

Definition sample : Table Z :=
  mkTable ["age"; "sex"; "cp"; "chol"]
    [[CStr "29"; CNum 1; CNum 0; CNum 240];
     [CStr "45"; CNum 0; CNum 1; CStr "?"];
     [CStr "29"; CNum 1; CNum 0; CNum 240];
     [CStr "60"; CNum 1; CNum 3; CNum 190]]%Z.

Definition test_fetch_ucirepo (id : Z) : Result (Table Z) :=
  if decide (id = 45%Z) then Ok sample
  else Raised (Exception "DatasetNotFoundError" "unknown dataset").

Definition test_create_engine (uri : string) : Result Engine :=
  if decide (uri = "") then Raised (Exception "ArgumentError" "empty URL")
  else Ok (mkEngine uri).

Definition test_to_sql_failure (e : Engine) (name : string) (t : Table Z) : option exn :=
  if String.prefix "postgresql://" (engine_url e) then None
  else Some (Exception "OperationalError" "connection refused").

#[export, refine] Instance library : Library Z := {|
  parse_numeric := test_parse_numeric;
  to_datetime_coerce := test_to_datetime_coerce;
  fetch_ucirepo := test_fetch_ucirepo;
  create_engine := test_create_engine;
  to_sql_failure := test_to_sql_failure;
|}.
Proof. intros s ds [= <-]. apply length_map. Defined.

(** One column that holds the same age once as text and once as a
    number. *)
Definition mixed_ages : Table Z :=
  mkTable ["age"] [[CStr "29"]; [CNum 29%Z]].

(** A date-named column with two dates and a value that is no date. *)
Definition visits : Table Z :=
  mkTable ["id"; "visit_date"]
    [[CNum 1%Z; CStr "2020-01-15"];
     [CNum 2%Z; CStr "01/16/2020"];
     [CNum 3%Z; CStr "bad"]].

(** The sample frame of the repository's unit test ([setUp]). *)
Definition unit_test_sample : Table Z :=
  mkTable ["age"; "sex"; "cp"; "chol"]
    [[CStr "29"; CNum 1; CNum 0; CNum 240];
     [CStr "45"; CNum 0; CNum 1; CStr "?"];
     [CStr "?"; CNum 1; CNum 2; CNum 200];
     [CStr "60"; CNum 1; CNum 3; CNum 190]]%Z.

(** The same row twice, holding the sentinel. *)
Definition sentinel_twice : Table Z :=
  mkTable ["chol"] [[CStr "?"]; [CStr "?"]].

(** A world with two frames. *)
Definition two_frames : World Z := mkWorld [sample; visits] [] ∅.

(** A table that needs no cleaning. *)
Definition clean_numeric : Table Z :=
  mkTable ["age"; "chol"] [[CNum 29; CNum 240]; [CNum 60; CNum 190]]%Z.

(** A pipeline configured with a dataset the repository does not know. *)
Definition etl_unknown_dataset : HeartDiseaseETL :=
  mkETL "postgresql://postgres:postgres@db:5432/heartdiseasedb"
    "heart_disease" 1.

(** What [transform] returns for [mixed_ages]. *)
Definition mixed_ages_output : Table Z :=
  mkTable ["age"] [[CNum 29%Z]; [CNum 29%Z]].

(** A date-named column whose dates are all written [YYYY-MM-DD], and a
    value that is no date. *)
Definition checkups : Table Z :=
  mkTable ["id"; "checkup_date"]
    [[CNum 1%Z; CStr "2020-01-15"];
     [CNum 2%Z; CStr "2020-01-16"];
     [CNum 3%Z; CStr "bad"]].

(** What [transform] returns for [checkups]. *)
Definition checkups_output : Table Z :=
  mkTable ["id"; "checkup_date"]
    [[CNum 1%Z; CStr "2020-01-15"];
     [CNum 2%Z; CStr "2020-01-16"];
     [CNum 3%Z; CNA]].

(** Columns without any row. *)
Definition no_rows : Table Z := mkTable ["age"; "sex"] [].

Definition etl : HeartDiseaseETL := default_etl "postgresql://postgres:postgres@db:5432/heartdiseasedb".

(** The same pipeline pointed at a store that refuses the write. *)
Definition etl_unreachable : HeartDiseaseETL := default_etl "mysql://db/heartdiseasedb".

Definition empty_world : World Z := mkWorld [] [] ∅.

(** A world whose only frame is [t], referenced by [0]. *)
Definition world_with (t : Table Z) : World Z := mkWorld [t] [] ∅.

End TestLibrary.


(** * Properties *)

Local Close Scope string_scope.

(** ** Sequences of results *)

Section ResultLemmas.
Context {A B : Type} (f : A → Result B).

Lemma result_mapM_Ok (l : list A) (v : list B) :
  result_mapM f l = Ok v ↔ Forall2 (λ x y, f x = Ok y) l v.
Proof.
  revert v. induction l as [|x l IH]; intros v; simpl.
  - split.
    + intros [= <-]. constructor.
    + intros Hv. inversion Hv. reflexivity.
  - destruct (f x) as [y|e] eqn:Hx.
    + destruct (result_mapM f l) as [ys|e] eqn:Hl.
      * split.
        -- intros [= <-]. constructor; [assumption | by apply IH].
        -- intros Hv. inversion Hv as [|? y' ? ys' Hy Hys]; subst.
           apply IH in Hys. congruence.
      * split; [discriminate |].
        intros Hv. inversion Hv as [|? y' ? ys' Hy Hys]; subst.
        apply IH in Hys. discriminate.
    + split; [discriminate |].
      intros Hv. inversion Hv; congruence.
Qed.

Lemma result_mapM_Raised (l : list A) (e : exn) :
  result_mapM f l = Raised e → ∃ x, x ∈ l ∧ f x = Raised e.
Proof.
  induction l as [|x l IH]; simpl; [discriminate |].
  destruct (f x) as [y|e'] eqn:Hx.
  - destruct (result_mapM f l) as [ys|e'']; [discriminate |].
    intros [= ->]. destruct IH as (x' & Hin & Hx'); [reflexivity |].
    exists x'. split; [by right | assumption].
  - intros [= ->]. exists x. split; [by left | assumption].
Qed.

Lemma result_mapM_all_ok (l : list A) :
  (∀ x, x ∈ l → ∃ y, f x = Ok y) → ∃ v, result_mapM f l = Ok v.
Proof.
  intros Hall. destruct (result_mapM f l) as [v|e] eqn:Hl; [by exists v |].
  apply result_mapM_Raised in Hl as (x & Hin & Hx).
  destruct (Hall x Hin) as [y Hy]. congruence.
Qed.


Lemma result_mapM_length (l : list A) (v : list B) :
  result_mapM f l = Ok v → length v = length l.
Proof. intros Hv%result_mapM_Ok. symmetry. by eapply Forall2_length. Qed.

End ResultLemmas.

(** ** Rows: duplicates, sentinels and missing values *)

Section RowLemmas.
Context {Num : Type} `{EqDecision Num}.
Implicit Types (r : Row Num) (rs seen : list (Row Num)) (t : Table Num).

Lemma elem_of_drop_duplicates_from seen rs r :
  r ∈ drop_duplicates_from seen rs ↔ r ∈ rs ∧ r ∉ seen.
Proof.
  revert seen. induction rs as [|r' rs IH]; intros seen; simpl.
  - split; [by intros ?%elem_of_nil | by intros [?%elem_of_nil _]].
  - destruct (decide (r' ∈ seen)) as [Hin|Hnin].
    + rewrite IH, elem_of_cons. naive_solver.
    + rewrite !elem_of_cons, IH, elem_of_cons.
      destruct (decide (r = r')); naive_solver.
Qed.

Lemma NoDup_drop_duplicates_from seen rs :
  NoDup (drop_duplicates_from seen rs).
Proof.
  revert seen. induction rs as [|r rs IH]; intros seen; simpl.
  - constructor.
  - destruct (decide (r ∈ seen)); [apply IH |].
    constructor; [| apply IH].
    rewrite elem_of_drop_duplicates_from, elem_of_cons. naive_solver.
Qed.

(** The first occurrence is the one kept: a row appended at the end
    survives exactly when it has not occurred before. *)
Lemma drop_duplicates_from_snoc seen rs r :
  drop_duplicates_from seen (rs ++ [r])
  = drop_duplicates_from seen rs
    ++ (if decide (r ∈ seen ++ rs) then [] else [r]).
Proof.
  revert seen. induction rs as [|r' rs IH]; intros seen; simpl.
  - rewrite app_nil_r. by destruct (decide (r ∈ seen)).
  - destruct (decide (r' ∈ seen)) as [Hin|Hnin]; rewrite IH.
    + f_equal. apply decide_ext. set_solver.
    + simpl. f_equal. f_equal. apply decide_ext. set_solver.
Qed.

Lemma drop_duplicates_from_NoDup seen rs :
  NoDup rs → (∀ r, r ∈ rs → r ∉ seen) → drop_duplicates_from seen rs = rs.
Proof.
  intros Hnd. revert seen.
  induction Hnd as [|r rs Hr Hnd IH]; intros seen Hseen; simpl; [done |].
  destruct (decide (r ∈ seen)) as [Hin|_].
  - exfalso. by apply (Hseen r); [left |].
  - f_equal. apply IH. intros r' Hr' [->|Hs]%elem_of_cons; [done |].
    by apply (Hseen r'); [right |].
Qed.


Lemma row_notna_replace r :
  row_notna (map (replace_cell (CStr "?") CNA) r) = clean_row r.
Proof.
  unfold row_notna, clean_row, replace_cell.
  induction r as [|c r IH]; simpl; [done |]. rewrite IH. f_equal.
  destruct (decide (c = CStr "?")) as [->|Hc]; [done |].
  rewrite bool_decide_eq_false_2 by done. by rewrite andb_true_r.
Qed.

Lemma clean_row_replace r :
  clean_row r = true → map (replace_cell (CStr "?") CNA) r = r.
Proof.
  unfold clean_row, replace_cell.
  induction r as [|c r IH]; simpl; [done |].
  intros [[_ Hc]%andb_prop Hr]%andb_prop. f_equal; [| by apply IH].
  destruct (decide (c = CStr "?")) as [->|]; [| done].
  by rewrite bool_decide_eq_true_2 in Hc.
Qed.

Lemma clean_row_spec r :
  clean_row r = true ↔ (CNA ∉ r) ∧ (CStr "?" ∉ r).
Proof.
  unfold clean_row. rewrite forallb_forall. split.
  - intros Hall.
    split; intros Hin%list_elem_of_In; apply Hall in Hin.
    + done.
    + rewrite bool_decide_eq_true_2 in Hin by done. done.
  - intros [Hna Hq] c Hc%list_elem_of_In.
    destruct c as [s|n|]; simpl; try done.
    rewrite bool_decide_eq_false_2; [done |]. intros [= ->]. by apply Hq.
Qed.

(** After steps 1 to 3 the rows are the clean rows of the input, without
    repetition, in the order of their first occurrence. *)
Lemma rows_dropna_replace t :
  rows (table_dropna (table_replace (CStr "?") CNA t))
  = filter (λ r, clean_row r = true) (rows t).
Proof.
  unfold table_dropna, table_replace; simpl.
  induction (rows t) as [|r rs IH]; simpl; [done |].
  rewrite !filter_cons, IH, row_notna_replace.
  destruct (decide (clean_row r = true)) as [Hr|Hr]; [| done].
  by rewrite clean_row_replace.
Qed.

End RowLemmas.

(** ** Columns: reading and assigning *)

Section TableLemmas.
Context {Num : Type} `{EqDecision Num}.
Implicit Types (t : Table Num) (c : string) (s v : list (Cell Num)).

Lemma lookup_map {A B} (f : A → B) (l : list A) i :
  map f l !! i = f <$> l !! i.
Proof. revert i. induction l as [|x l IH]; intros [|i]; simpl; auto. Qed.

Lemma index_of_lookup c (cs : list string) j :
  index_of c cs = Some j → cs !! j = Some c.
Proof.
  revert j. induction cs as [|c' cs IH]; intros j; simpl; [done |].
  destruct (decide (c' = c)) as [->|Hne].
  - by intros [= <-].
  - destruct (index_of c cs) as [j'|]; simpl; [| done].
    intros [= <-]. simpl. by apply IH.
Qed.

Lemma index_of_elem c (cs : list string) :
  c ∈ cs → ∃ j, index_of c cs = Some j.
Proof.
  induction cs as [|c' cs IH]; simpl; [by intros ?%elem_of_nil |].
  intros Hin. destruct (decide (c' = c)) as [->|Hne]; [by exists 0%nat |].
  apply elem_of_cons in Hin as [->|Hin]; [done |].
  destruct (IH Hin) as [j ->]. by exists (S j).
Qed.


Lemma table_getitem_is_Some t c :
  c ∈ columns t → ∃ s, table_getitem t c = Some s.
Proof.
  intros [j Hj]%index_of_elem. unfold table_getitem. rewrite Hj. simpl. eauto.
Qed.

Lemma table_getitem_elem t c s :
  table_getitem t c = Some s → c ∈ columns t.
Proof.
  unfold table_getitem. destruct (index_of c (columns t)) as [j|] eqn:Hj; [| done].
  intros _. apply index_of_lookup in Hj. by eapply list_elem_of_lookup_2.
Qed.

Lemma table_getitem_length t c s :
  table_getitem t c = Some s → length s = length (rows t).
Proof.
  unfold table_getitem. destruct (index_of c (columns t)); simpl; [| done].
  intros [= <-]. apply length_map.
Qed.

Lemma table_setitem_columns t c v :
  c ∈ columns t → columns (table_setitem t c v) = columns t.
Proof.
  intros [j Hj]%index_of_elem. unfold table_setitem. by rewrite Hj.
Qed.

Lemma table_setitem_rows_length t c v :
  length (rows (table_setitem t c v)) = length (rows t).
Proof.
  unfold table_setitem. destruct (index_of c (columns t)); simpl;
    apply length_imap.
Qed.

Lemma table_setitem_no_rows t c v :
  c ∈ columns t → rows t = [] → table_setitem t c v = t.
Proof.
  intros [j Hj]%index_of_elem Hrows. unfold table_setitem. rewrite Hj, Hrows.
  destruct t as [cs rs]; simpl in *. by subst.
Qed.

Lemma table_getitem_setitem_eq t c v :
  Forall (λ r : Row Num, length r = length (columns t)) (rows t) →
  c ∈ columns t →
  length v = length (rows t) →
  table_getitem (table_setitem t c v) c = Some v.
Proof.
  intros Hlen [j Hj]%index_of_elem Hv.
  unfold table_getitem, table_setitem. rewrite Hj; simpl. rewrite Hj; simpl.
  f_equal. apply list_eq. intros i.
  rewrite lookup_map, list_lookup_imap.
  destruct (rows t !! i) as [r|] eqn:Hr; simpl.
  - assert (Hi : (i < length v)%nat).
    { rewrite Hv. by eapply lookup_lt_Some. }
    apply lookup_lt_is_Some in Hi as [x Hx]. rewrite Hx. simpl.
    unfold cell_at. rewrite list_lookup_insert_eq; [done |].
    rewrite Forall_lookup in Hlen. rewrite (Hlen i r Hr).
    apply index_of_lookup in Hj. by eapply lookup_lt_Some.
  - symmetry. apply lookup_ge_None. rewrite Hv. by apply lookup_ge_None.
Qed.

Lemma table_getitem_setitem_ne t c c' v :
  c' ≠ c → c ∈ columns t →
  table_getitem (table_setitem t c v) c' = table_getitem t c'.
Proof.
  intros Hne [j Hj]%index_of_elem.
  unfold table_getitem, table_setitem. rewrite Hj; simpl.
  destruct (index_of c' (columns t)) as [j'|] eqn:Hj'; simpl; [| done].
  f_equal. apply list_eq. intros i.
  rewrite !lookup_map, list_lookup_imap.
  destruct (rows t !! i) as [r|]; simpl; [| done].
  unfold cell_at. rewrite list_lookup_insert_ne; [done |].
  intros ->. apply index_of_lookup in Hj, Hj'. congruence.
Qed.

Lemma wf_table_setitem t c v :
  wf_table t → c ∈ columns t → wf_table (table_setitem t c v).
Proof.
  intros (Hnd & Hlen & Hempty) Hin.
  destruct (index_of_elem _ _ Hin) as [j Hj].
  unfold wf_table, table_setitem. rewrite Hj; simpl.
  split; [done |]. split.
  - apply Forall_lookup. intros i r. rewrite list_lookup_imap.
    destruct (rows t !! i) as [r'|] eqn:Hr; simpl; [| done].
    intros [= <-]. rewrite length_insert.
    rewrite Forall_lookup in Hlen. by eapply Hlen.
  - intros Hcs. rewrite Hcs in Hin. by apply elem_of_nil in Hin.
Qed.

(** The cells of an assigned column are the assigned values, the cells of
    the replaced row, or missing values. *)
Lemma table_setitem_cells (P : Cell Num → Prop) t c v :
  P CNA →
  Forall P v →
  Forall (Forall P) (rows t) →
  Forall (Forall P) (rows (table_setitem t c v)).
Proof.
  intros Hna Hv Hrows.
  assert (Hd : ∀ i, P (default CNA (v !! i))).
  { intros i. destruct (v !! i) as [x|] eqn:Hx; simpl; [| done].
    rewrite Forall_lookup in Hv. by eapply Hv. }
  unfold table_setitem.
  destruct (index_of c (columns t)) as [j|]; simpl;
    apply Forall_lookup; intros i r; rewrite list_lookup_imap;
    destruct (rows t !! i) as [r'|] eqn:Hr; simpl; try done;
    intros [= <-]; rewrite Forall_lookup in Hrows;
    specialize (Hrows i r' Hr).
  - apply Forall_lookup. intros k x Hk.
    apply list_lookup_insert_Some in Hk as [(-> & <- & _)|[_ Hk]]; [apply Hd |].
    rewrite Forall_lookup in Hrows. by eapply Hrows.
  - apply Forall_app. split; [done |]. constructor; [apply Hd | constructor].
Qed.

End TableLemmas.

(** ** A loop that rewrites one column per iteration *)

(** Both loops of [transform] have the same shape: an attempt computes new
    values from the current values of one column, and the column is
    assigned when the attempt succeeds. *)
Section ColumnLoop.
Context {Num : Type} `{EqDecision Num}.
Variable attempt : Table Num → string → Result (list (Cell Num)).

Let update (t : Table Num) (c : string) : Table Num :=
  match attempt t c with
  | Ok v => table_setitem t c v
  | Raised _ => t
  end.

Hypothesis attempt_reads_column :
  ∀ t t' c, table_getitem t c = table_getitem t' c → attempt t c = attempt t' c.
Hypothesis attempt_length :
  ∀ t c v, attempt t c = Ok v → length v = length (rows t).
Hypothesis attempt_column :
  ∀ t c v, attempt t c = Ok v → c ∈ columns t.

Lemma update_columns t c : columns (update t c) = columns t.
Proof.
  unfold update. destruct (attempt t c) as [v|e] eqn:Hv; [| done].
  apply table_setitem_columns. by eapply attempt_column.
Qed.

Lemma update_rows_length t c : length (rows (update t c)) = length (rows t).
Proof.
  unfold update. destruct (attempt t c); [| done].
  apply table_setitem_rows_length.
Qed.

Lemma update_no_rows t c : rows t = [] → update t c = t.
Proof.
  intros Hrows. unfold update. destruct (attempt t c) as [v|e] eqn:Hv; [| done].
  apply table_setitem_no_rows; [by eapply attempt_column | done].
Qed.

Lemma update_wf t c : wf_table t → wf_table (update t c).
Proof.
  intros Hwf. unfold update. destruct (attempt t c) as [v|e] eqn:Hv; [| done].
  apply wf_table_setitem; [done | by eapply attempt_column].
Qed.

Lemma update_getitem_ne t c c' :
  c' ≠ c → table_getitem (update t c) c' = table_getitem t c'.
Proof.
  intros Hne. unfold update. destruct (attempt t c) as [v|e] eqn:Hv; [| done].
  apply table_getitem_setitem_ne; [done | by eapply attempt_column].
Qed.

Lemma update_getitem_eq t c :
  wf_table t →
  table_getitem (update t c) c
  = match attempt t c with Ok v => Some v | Raised _ => table_getitem t c end.
Proof.
  intros (_ & Hlen & _). unfold update.
  destruct (attempt t c) as [v|e] eqn:Hv; [| done].
  apply table_getitem_setitem_eq;
    [done | by eapply attempt_column | by eapply attempt_length].
Qed.

Lemma foldl_update_columns t cs : columns (foldl update t cs) = columns t.
Proof.
  revert t. induction cs as [|c cs IH]; intros t; simpl; [done |].
  by rewrite IH, update_columns.
Qed.

Lemma foldl_update_rows_length t cs :
  length (rows (foldl update t cs)) = length (rows t).
Proof.
  revert t. induction cs as [|c cs IH]; intros t; simpl; [done |].
  by rewrite IH, update_rows_length.
Qed.

Lemma foldl_update_no_rows t cs : rows t = [] → foldl update t cs = t.
Proof.
  intros Hrows. induction cs as [|c cs IH]; simpl; [done |].
  by rewrite update_no_rows.
Qed.

Lemma foldl_update_wf t cs : wf_table t → wf_table (foldl update t cs).
Proof.
  revert t. induction cs as [|c cs IH]; intros t Hwf; simpl; [done |].
  by apply IH, update_wf.
Qed.

(** Every cell of the result satisfies [P] when the cells of the input
    and the values of every successful attempt do. *)
Lemma foldl_update_cells (P : Cell Num → Prop) t cs :
  P CNA →
  (∀ t c v, attempt t c = Ok v → Forall P v) →
  Forall (Forall P) (rows t) →
  Forall (Forall P) (rows (foldl update t cs)).
Proof.
  intros Hna Hv. revert t.
  induction cs as [|c cs IH]; intros t Ht; simpl; [done |].
  apply IH. unfold update. destruct (attempt t c) as [v|e] eqn:Hc; [| done].
  apply table_setitem_cells; [done | by eapply Hv | done].
Qed.

(** The columns are treated independently: when no column is named
    twice, each column of the result is what its own attempt on the
    initial table decides. *)
Lemma foldl_update_getitem t cs c :
  wf_table t → NoDup cs →
  table_getitem (foldl update t cs) c
  = if decide (c ∈ cs)
    then match attempt t c with
         | Ok v => Some v
         | Raised _ => table_getitem t c
         end
    else table_getitem t c.
Proof.
  intros Hwf Hnd. revert t Hwf.
  induction Hnd as [|c0 cs Hc0 Hnd IH]; intros t Hwf; simpl.
  - done.
  - rewrite IH by by apply update_wf.
    destruct (decide (c = c0)) as [->|Hne].
    + rewrite (decide_False (P := c0 ∈ cs)) by done.
      rewrite (decide_True (P := c0 ∈ c0 :: cs)) by by left.
      by apply update_getitem_eq.
    + assert (Hget : table_getitem (update t c0) c = table_getitem t c)
        by by apply update_getitem_ne.
      rewrite Hget, (attempt_reads_column _ _ _ Hget).
      destruct (decide (c ∈ cs)) as [Hin|Hnin].
      * rewrite decide_True; [done | by right].
      * rewrite decide_False; [done |].
        intros [?|?]%elem_of_cons; done.
Qed.

(** Likewise for the log: each record is decided by the initial table. *)
Lemma loop_log_independent (msg : Table Num → string → list LogRecord) t cs :
  (∀ t t' c, attempt t c = attempt t' c → msg t c = msg t' c) →
  NoDup cs →
  loop_log update msg t cs = flat_map (msg t) cs.
Proof.
  intros Hmsg Hnd. revert t.
  induction Hnd as [|c0 cs Hc0 Hnd IH]; intros t; simpl; [done |].
  f_equal. rewrite IH. clear IH.
  induction cs as [|c cs IH]; simpl; [done |].
  apply not_elem_of_cons in Hc0 as [Hne Hc0].
  apply NoDup_cons in Hnd as [_ Hnd].
  f_equal; [| by apply IH].
  apply Hmsg, attempt_reads_column, update_getitem_ne. congruence.
Qed.

End ColumnLoop.

(** ** The two loops of [transform] as column loops *)

Section StepLemmas.
Context {Num : Type} `{EqDecision Num} `{!Library Num}.
Implicit Types (t : Table Num) (c : string).

Lemma numeric_attempt_reads_column t t' c :
  table_getitem t c = table_getitem t' c →
  numeric_attempt t c = numeric_attempt t' c.
Proof. unfold numeric_attempt. by intros ->. Qed.

Lemma numeric_attempt_length t c v :
  numeric_attempt t c = Ok v → length v = length (rows t).
Proof.
  unfold numeric_attempt. destruct (table_getitem t c) as [s|] eqn:Hs; [| done].
  intros Hv%result_mapM_length. rewrite Hv. by eapply table_getitem_length.
Qed.

Lemma numeric_attempt_column t c v :
  numeric_attempt t c = Ok v → c ∈ columns t.
Proof.
  unfold numeric_attempt. destruct (table_getitem t c) as [s|] eqn:Hs; [| done].
  intros _. by eapply table_getitem_elem.
Qed.

Lemma date_attempt_reads_column t t' c :
  table_getitem t c = table_getitem t' c →
  date_attempt t c = date_attempt t' c.
Proof. unfold date_attempt. by intros ->. Qed.

Lemma date_attempt_length t c v :
  date_attempt t c = Ok v → length v = length (rows t).
Proof.
  unfold date_attempt. destruct (table_getitem t c) as [s|] eqn:Hs; [| done].
  destruct (to_datetime_coerce s) as [ds|e] eqn:Hds; simpl; [| done].
  intros [= <-]. unfold dt_strftime. rewrite length_map.
  rewrite (to_datetime_coerce_length _ _ Hds). by eapply table_getitem_length.
Qed.

Lemma date_attempt_column t c v :
  date_attempt t c = Ok v → c ∈ columns t.
Proof.
  unfold date_attempt. destruct (table_getitem t c) as [s|] eqn:Hs; [| done].
  intros _. by eapply table_getitem_elem.
Qed.

Lemma step_numeric_coercion_columns t :
  columns (step_numeric_coercion t) = columns t.
Proof. apply foldl_update_columns, numeric_attempt_column. Qed.

Lemma step_date_normalization_columns t :
  columns (step_date_normalization t) = columns t.
Proof. apply foldl_update_columns, date_attempt_column. Qed.

Lemma step_numeric_coercion_rows_length t :
  length (rows (step_numeric_coercion t)) = length (rows t).
Proof. apply (foldl_update_rows_length numeric_attempt). Qed.

Lemma step_date_normalization_rows_length t :
  length (rows (step_date_normalization t)) = length (rows t).
Proof. apply (foldl_update_rows_length date_attempt). Qed.

Lemma step_numeric_coercion_no_rows t :
  rows t = [] → step_numeric_coercion t = t.
Proof. apply foldl_update_no_rows, numeric_attempt_column. Qed.

Lemma step_date_normalization_no_rows t :
  rows t = [] → step_date_normalization t = t.
Proof. apply foldl_update_no_rows, date_attempt_column. Qed.

(** Step 4, column by column: a column is replaced by its converted
    values when the conversion succeeds and is left as it is otherwise. *)
Lemma step_numeric_coercion_getitem t c :
  wf_table t →
  table_getitem (step_numeric_coercion t) c
  = match numeric_attempt t c with
    | Ok v => Some v
    | Raised _ => table_getitem t c
    end.
Proof.
  intros Hwf. unfold step_numeric_coercion.
  etransitivity.
  { apply (foldl_update_getitem numeric_attempt);
      [apply numeric_attempt_reads_column | apply numeric_attempt_length
      | apply numeric_attempt_column | done | by destruct Hwf]. }
  destruct (decide (c ∈ columns t)) as [Hc|Hc]; [done |].
  destruct (numeric_attempt t c) as [v|e] eqn:Hv; [| done].
  by apply numeric_attempt_column in Hv.
Qed.

(** Step 5, column by column. *)
Lemma step_date_normalization_getitem t c :
  wf_table t →
  table_getitem (step_date_normalization t) c
  = if is_date_column c
    then match date_attempt t c with
         | Ok v => Some v
         | Raised _ => table_getitem t c
         end
    else table_getitem t c.
Proof.
  intros Hwf. unfold step_date_normalization.
  etransitivity.
  { apply (foldl_update_getitem date_attempt);
      [apply date_attempt_reads_column | apply date_attempt_length
      | apply date_attempt_column | done |].
    destruct Hwf as (Hnd & _). by apply NoDup_filter. }
  unfold date_columns.
  destruct (decide (c ∈ filter _ (columns t))) as [Hc|Hc].
  - apply list_elem_of_filter in Hc as [-> _]. done.
  - destruct (is_date_column c) eqn:Hd; [| done].
    destruct (date_attempt t c) as [v|e] eqn:Hv; [| done].
    exfalso. apply Hc, list_elem_of_filter.
    split; [done | by eapply date_attempt_column].
Qed.

Lemma steps_1_to_3_columns t : columns (steps_1_to_3 t) = columns t.
Proof. done. Qed.

Lemma steps_1_to_3_rows t :
  rows (steps_1_to_3 t)
  = filter (λ r, clean_row r = true) (drop_duplicates_from [] (rows t)).
Proof.
  unfold steps_1_to_3, step_drop_missing, step_normalize_missing.
  by rewrite rows_dropna_replace.
Qed.

Lemma steps_1_to_3_wf t : wf_table t → wf_table (steps_1_to_3 t).
Proof.
  intros (Hnd & Hlen & Hempty). unfold wf_table.
  rewrite steps_1_to_3_rows, steps_1_to_3_columns.
  split; [done |]. split.
  - apply Forall_forall. intros r [_ Hr]%list_elem_of_filter.
    apply elem_of_drop_duplicates_from in Hr as [Hr _].
    rewrite Forall_forall in Hlen. by apply Hlen.
  - intros Hcs. by rewrite (Hempty Hcs).
Qed.

Lemma steps_1_to_4_wf t : wf_table t → wf_table (steps_1_to_4 t).
Proof.
  intros Hwf. apply foldl_update_wf; [apply numeric_attempt_column |].
  by apply steps_1_to_3_wf.
Qed.

Lemma steps_1_to_4_columns t : columns (steps_1_to_4 t) = columns t.
Proof. unfold steps_1_to_4. by rewrite step_numeric_coercion_columns. Qed.

Lemma transform_steps_columns t : columns (transform_steps t) = columns t.
Proof.
  unfold transform_steps.
  by rewrite step_date_normalization_columns, steps_1_to_4_columns.
Qed.

Lemma numeric_loop_log t :
  wf_table t →
  loop_log numeric_column numeric_message t (columns t)
  = flat_map (numeric_message t) (columns t).
Proof.
  intros (Hnd & _).
  apply (loop_log_independent numeric_attempt);
    [apply numeric_attempt_reads_column | apply numeric_attempt_column | | done].
  unfold numeric_message. by intros ??? ->.
Qed.



End StepLemmas.

(** ** Running the imperative code *)

Section RunLemmas.
Context {Num : Type} `{EqDecision Num} `{!Library Num}.
Implicit Types (w : World Num) (t : Table Num) (df : ref) (c : string).

Lemma bind_run {A B} (m : M A) (k : A → M B) w a w' :
  m w = (Ok a, w') → (m ≫= k) w = k a w'.
Proof. intros Hm. unfold mbind, M_bind, bind. by rewrite Hm. Qed.

Lemma bind_raised {A B} (m : M A) (k : A → M B) w e w' :
  m w = (Raised e, w') → (m ≫= k) w = (Raised e, w').
Proof. intros Hm. unfold mbind, M_bind, bind. by rewrite Hm. Qed.

Lemma deref_run df w t : heap w !! df = Some t → deref df w = (Ok t, w).
Proof. intros Ht. unfold deref. by rewrite Ht. Qed.

Lemma shape0_run df w t :
  heap w !! df = Some t → shape0 df w = (Ok (length (rows t)), w).
Proof. intros Ht. unfold shape0. by rewrite (bind_run _ _ _ _ _ (deref_run _ _ _ Ht)). Qed.

Lemma df_columns_run df w t :
  heap w !! df = Some t → df_columns df w = (Ok (columns t), w).
Proof. intros Ht. unfold df_columns. by rewrite (bind_run _ _ _ _ _ (deref_run _ _ _ Ht)). Qed.

Lemma drop_duplicates_run df w t :
  heap w !! df = Some t →
  drop_duplicates df w
  = (Ok (length (heap w)),
     mkWorld (heap w ++ [table_drop_duplicates t]) (log w) (database w)).
Proof.
  intros Ht. unfold drop_duplicates.
  by rewrite (bind_run _ _ _ _ _ (deref_run _ _ _ Ht)).
Qed.

Lemma dropna_run df w t :
  heap w !! df = Some t →
  dropna df w
  = (Ok (length (heap w)),
     mkWorld (heap w ++ [table_dropna t]) (log w) (database w)).
Proof.
  intros Ht. unfold dropna.
  by rewrite (bind_run _ _ _ _ _ (deref_run _ _ _ Ht)).
Qed.

Lemma replace_inplace_run df w t a b :
  heap w !! df = Some t →
  replace_inplace df a b w
  = (Ok (), mkWorld (<[df := table_replace a b t]> (heap w)) (log w) (database w)).
Proof.
  intros Ht. unfold replace_inplace.
  by rewrite (bind_run _ _ _ _ _ (deref_run _ _ _ Ht)).
Qed.

Lemma world_insert_id df w t :
  heap w !! df = Some t →
  mkWorld (<[df := t]> (heap w)) (log w ++ []) (database w) = w.
Proof.
  intros Ht. destruct w as [h l d]; simpl in *.
  by rewrite list_insert_id, app_nil_r.
Qed.

Lemma numeric_body_run df c w t :
  heap w !! df = Some t →
  numeric_body df c w
  = (Ok (), mkWorld (<[df := numeric_column t c]> (heap w))
              (log w ++ numeric_message t c) (database w)).
Proof.
  intros Ht.
  unfold numeric_body, try_except, getitem, setitem, to_numeric.
  unfold mbind, M_bind, bind, mret, M_ret, ret, deref. rewrite Ht.
  unfold numeric_column, numeric_message, numeric_attempt.
  destruct (table_getitem t c) as [s|]; simpl.
  - destruct (result_mapM numeric_of_cell s) as [v|e]; simpl.
    + rewrite Ht. simpl. by rewrite app_nil_r.
    + unfold logging_warning, logging. by rewrite list_insert_id.
  - unfold raise, logging_warning, logging. by rewrite list_insert_id.
Qed.

Lemma date_body_run df c w t :
  heap w !! df = Some t →
  date_body df c w
  = (Ok (), mkWorld (<[df := date_column t c]> (heap w))
              (log w ++ date_message t c) (database w)).
Proof.
  intros Ht.
  unfold date_body, try_except, getitem, setitem, to_datetime_dt.
  unfold mbind, M_bind, bind, mret, M_ret, ret, deref. rewrite Ht.
  unfold date_column, date_message, date_attempt.
  destruct (table_getitem t c) as [s|]; simpl.
  - destruct (to_datetime_coerce s) as [ds|e]; simpl.
    + rewrite Ht. by simpl.
    + unfold logging_warning, logging. by rewrite list_insert_id.
  - unfold raise, logging_warning, logging. by rewrite list_insert_id.
Qed.

(** A loop whose body rewrites the frame behind [df] by [f] and logs
    [msg] does so for each element in turn, and does not raise. *)
Lemma for_each_run df (body : string → M ())
    (f : Table Num → string → Table Num)
    (msg : Table Num → string → list LogRecord) :
  (∀ c w t, heap w !! df = Some t →
     body c w = (Ok (), mkWorld (<[df := f t c]> (heap w))
                          (log w ++ msg t c) (database w))) →
  ∀ cs w t, heap w !! df = Some t →
    for_each cs body w
    = (Ok (), mkWorld (<[df := foldl f t cs]> (heap w))
                (log w ++ loop_log f msg t cs) (database w)).
Proof.
  intros Hbody cs. induction cs as [|c cs IH]; intros w t Ht; simpl.
  - unfold ret. by rewrite world_insert_id.
  - rewrite (bind_run _ _ _ _ _ (Hbody c w t Ht)).
    rewrite (IH _ (f t c)); simpl.
    + by rewrite list_insert_insert_eq, app_assoc.
    + apply list_lookup_insert_eq. by eapply lookup_lt_Some.
Qed.

(** [transform] on a live frame [t]: it returns a reference to a new
    frame holding the result of the five steps; the frame allocated by
    [drop_duplicates] is left behind with the sentinel replaced; the log
    grows by [transform_log t]. *)
Lemma transform_run self df w t :
  heap w !! df = Some t →
  transform self df w
  = (Ok (S (length (heap w))),
     mkWorld (heap w ++ [step_normalize_missing (step_deduplicate t);
                         transform_steps t])
       (log w ++ transform_log t) (database w)).
Proof.
  intros Ht. unfold transform.
  erewrite bind_run; [| reflexivity].
  erewrite bind_run; [| by apply shape0_run].
  erewrite bind_run; [| by apply drop_duplicates_run].
  simpl.
  erewrite bind_run; [| by apply shape0_run; simpl; apply list_lookup_middle].
  erewrite bind_run; [| reflexivity]. simpl.
  erewrite bind_run;
    [| by apply replace_inplace_run; simpl; apply list_lookup_middle].
  simpl. rewrite insert_app_r_alt, Nat.sub_diag by lia. simpl.
  erewrite bind_run; [| by apply dropna_run; simpl; apply list_lookup_middle].
  simpl.
  set (h := (heap w ++ [_])%list).
  set (t3 := table_dropna _).
  assert (Hh : length h = S (length (heap w))).
  { unfold h. rewrite length_app. simpl. lia. }
  assert (Ht3 : (h ++ [t3]) !! length h = Some t3) by by apply list_lookup_middle.
  erewrite bind_run; [| by apply shape0_run].
  erewrite bind_run; [| reflexivity]. simpl.
  erewrite bind_run; [| by apply df_columns_run].
  erewrite bind_run;
    [| by eapply for_each_run with (f := numeric_column) (msg := numeric_message);
          [apply numeric_body_run |]].
  simpl. rewrite insert_app_r_alt, Nat.sub_diag by lia. simpl.
  assert (Ht4 : (h ++ [foldl numeric_column t3 (columns t3)]) !! length h
                = Some (foldl numeric_column t3 (columns t3)))
    by by apply list_lookup_middle.
  erewrite bind_run; [| by apply df_columns_run].
  erewrite bind_run;
    [| by eapply for_each_run with (f := date_column) (msg := date_message);
          [apply date_body_run |]].
  simpl. rewrite insert_app_r_alt, Nat.sub_diag by lia. simpl.
  unfold mret, M_ret, ret. rewrite Hh. f_equal.
  unfold h. rewrite <- !app_assoc. simpl.
  f_equal.
Qed.

(** What a caller of [transform] observes. *)
Lemma transform_returns self df w t :
  heap w !! df = Some t →
  ∃ df' w',
    transform self df w = (Ok df', w') ∧
    heap w' !! df' = Some (transform_steps t) ∧
    log w' = log w ++ transform_log t ∧
    database w' = database w ∧
    heap w !! df' = None ∧
    (∀ r t', heap w !! r = Some t' → heap w' !! r = Some t').
Proof.
  intros Ht. eexists _, _. split; [by apply transform_run |]. simpl.
  split; [| split; [done | split; [done | split]]].
  - replace (S (length (heap w))) with (length (heap w) + 1)%nat by lia.
    rewrite lookup_app_r by lia.
    by replace (length (heap w) + 1 - length (heap w))%nat with 1%nat by lia.
  - apply lookup_ge_None. lia.
  - intros r t' Hr. by apply lookup_app_l_Some.
Qed.

Lemma load_run self df w :
  load self df w
  = (Ok (),
     match load_attempt self df w with
     | Ok t =>
         mkWorld (heap w)
           (log w ++ [(INFO, MsgLoading); (INFO, MsgLoaded (table_name self))])
           (<[table_name self := t]> (database w))
     | Raised e =>
         mkWorld (heap w)
           (log w ++ [(INFO, MsgLoading); (ERROR, MsgLoadFailed e)])
           (database w)
     end).
Proof.
  unfold load, load_attempt, try_except, to_sql, lift_result.
  unfold mbind, M_bind, bind, mret, M_ret, ret, raise, deref.
  unfold logging_info, logging_error, logging. simpl.
  destruct (create_engine (db_uri self)) as [engine|e]; simpl.
  - destruct (heap w !! df) as [t|]; simpl.
    + destruct (to_sql_failure engine (table_name self) t) as [e|]; simpl;
        by rewrite <- app_assoc.
    + by rewrite <- app_assoc.
  - by rewrite <- app_assoc.
Qed.

Lemma extract_run self w t0 :
  fetch_ucirepo (data_id self) = Ok t0 →
  extract self w
  = (Ok (length (heap w)),
     mkWorld (heap w ++ [t0])
       (log w ++ [(INFO, MsgExtracting);
                  (INFO, MsgExtracted (length (rows t0)) (length (columns t0)))])
       (database w)).
Proof.
  intros Hfetch. unfold extract, shape0, shape1, lift_result. rewrite Hfetch.
  unfold mbind, M_bind, bind, mret, M_ret, ret, alloc, deref.
  unfold logging_info, logging. simpl.
  repeat (rewrite list_lookup_middle by done; simpl).
  by rewrite <- app_assoc.
Qed.

Lemma extract_raised self w e :
  fetch_ucirepo (data_id self) = Raised e →
  extract self w
  = (Raised e,
     mkWorld (heap w) (log w ++ [(INFO, MsgExtracting)]) (database w)).
Proof.
  intros Hfetch. unfold extract, lift_result. rewrite Hfetch.
  by unfold mbind, M_bind, bind, raise, logging_info, logging.
Qed.

(** When the extraction succeeds, [run] returns normally and its last
    record is the completion message, whatever [load] met. *)
Lemma run_completes self w t0 :
  fetch_ucirepo (data_id self) = Ok t0 →
  ∃ w', run self w = (Ok (), w') ∧ last (log w') = Some (INFO, MsgCompleted).
Proof.
  intros Hfetch. unfold run.
  erewrite bind_run; [| reflexivity].
  erewrite bind_run; [| by apply extract_run].
  erewrite bind_run;
    [| by apply transform_run; simpl; apply list_lookup_middle].
  erewrite bind_run; [| by apply load_run].
  eexists. split; [reflexivity |]. simpl. apply last_snoc.
Qed.

(** A failed extraction ends the run: the exception reaches the caller
    of [run]. *)
Lemma run_propagates_fetch_error self w e :
  fetch_ucirepo (data_id self) = Raised e →
  ∃ w', run self w = (Raised e, w').
Proof.
  intros Hfetch. unfold run.
  erewrite bind_run; [| reflexivity].
  erewrite bind_raised; [by eexists | by apply extract_raised].
Qed.

End RunLemmas.

(** ** Cells and log records of the result *)

Section OutputLemmas.
Context {Num : Type} `{EqDecision Num} `{!Library Num}.
Implicit Types (t : Table Num) (c : string).


Lemma numeric_of_cell_not_sentinel (x y : Cell Num) :
  numeric_of_cell x = Ok y → y ≠ CStr "?".
Proof.
  destruct x as [s|n|]; simpl.
  - destruct (parse_numeric s) as [n|e]; simpl; [| done]. by intros [= <-].
  - by intros [= <-].
  - by intros [= <-].
Qed.

Lemma strftime_ymd_length (d : Date) : String.length (strftime_ymd d) = 10%nat.
Proof. reflexivity. Qed.

Lemma strftime_cell_not_sentinel (d : option Date) :
  strftime_cell (Num := Num) d ≠ CStr "?".
Proof.
  destruct d as [d|]; simpl; [| done].
  intros Hd.
  apply (f_equal (λ x, match x with CStr s => String.length s | _ => 0%nat end))
    in Hd.
  change (String.length (strftime_ymd d) = 1%nat) in Hd.
  by rewrite strftime_ymd_length in Hd.
Qed.

Lemma NoDup_steps_1_to_3 t : NoDup (rows (steps_1_to_3 t)).
Proof.
  rewrite steps_1_to_3_rows. apply NoDup_filter, NoDup_drop_duplicates_from.
Qed.

Lemma steps_1_to_3_clean t :
  Forall (λ r, clean_row r = true) (rows (steps_1_to_3 t)).
Proof.
  rewrite steps_1_to_3_rows. apply Forall_forall.
  by intros r [Hr _]%list_elem_of_filter.
Qed.

Lemma transform_steps_rows_length t :
  length (rows (transform_steps t)) = length (rows (steps_1_to_3 t)).
Proof.
  unfold transform_steps, steps_1_to_4.
  by rewrite step_date_normalization_rows_length,
    step_numeric_coercion_rows_length.
Qed.

Lemma transform_steps_no_sentinel t :
  Forall (Forall (λ x : Cell Num, x ≠ CStr "?")) (rows (transform_steps t)).
Proof.
  unfold transform_steps, steps_1_to_4, step_date_normalization,
    step_numeric_coercion.
  apply foldl_update_cells; [done | |].
  { intros t' c v. unfold date_attempt.
    destruct (table_getitem t' c) as [s|]; [| done].
    destruct (to_datetime_coerce s) as [ds|e]; simpl; [| done].
    intros [= <-]. unfold dt_strftime. apply Forall_forall.
    intros x [d [<- _]]%list_elem_of_In%in_map_iff.
    apply strftime_cell_not_sentinel. }
  apply foldl_update_cells; [done | |].
  { intros t' c v. unfold numeric_attempt.
    destruct (table_getitem t' c) as [s|]; [| done].
    intros Hv%result_mapM_Ok. apply Forall_forall. intros y Hy.
    apply list_elem_of_lookup in Hy as [i Hi].
    destruct (Forall2_lookup_r _ _ _ _ _ Hv Hi) as (x & _ & Hx).
    by eapply numeric_of_cell_not_sentinel. }
  eapply Forall_impl; [apply steps_1_to_3_clean |].
  intros r [_ Hr]%clean_row_spec. apply Forall_forall. by intros x Hx ->.
Qed.


Lemma elem_of_loop_log (f : Table Num → string → Table Num)
    (msg : Table Num → string → list LogRecord) t cs (x : LogRecord) :
  x ∈ loop_log f msg t cs → ∃ t' c, c ∈ cs ∧ x ∈ msg t' c.
Proof.
  revert t. induction cs as [|c cs IH]; intros t; simpl.
  - by intros ?%elem_of_nil.
  - intros [Hx|Hx]%elem_of_app.
    + exists t, c. split; [by left | done].
    + destruct (IH _ Hx) as (t' & c' & Hc' & Hx').
      exists t', c'. split; [by right | done].
Qed.

(** The warning of the first loop is logged for exactly the columns
    whose conversion is abandoned. *)
Lemma not_numeric_logged t c :
  wf_table t →
  (WARNING, MsgNotNumeric c) ∈ transform_log t
  ↔ c ∈ columns t ∧ ∃ e, numeric_attempt (steps_1_to_3 t) c = Raised e.
Proof.
  intros Hwf. unfold transform_log.
  rewrite numeric_loop_log by by apply steps_1_to_3_wf.
  rewrite !elem_of_app. split.
  - intros [Hx|[Hx|Hx]].
    + repeat (apply elem_of_cons in Hx as [Hx|Hx]; [done |]).
      by apply elem_of_nil in Hx.
    + apply list_elem_of_In, in_flat_map in Hx as (c' & Hc' & Hx).
      apply list_elem_of_In in Hc', Hx. unfold numeric_message in Hx.
      destruct (numeric_attempt (steps_1_to_3 t) c') as [v|e] eqn:Hc.
      * by apply elem_of_nil in Hx.
      * apply list_elem_of_singleton in Hx as [= ->]. eauto.
    + apply elem_of_loop_log in Hx as (t' & c' & _ & Hx).
      unfold date_message in Hx. destruct (date_attempt t' c');
        by apply list_elem_of_singleton in Hx.
  - intros [Hc [e He]]. right; left.
    apply list_elem_of_In, in_flat_map. exists c.
    split; [by apply list_elem_of_In |].
    unfold numeric_message. rewrite He. by left.
Qed.

End OutputLemmas.

(** * The claims *)

Section Claims.
Context {Num : Type} `{EqDecision Num} `{!Library Num}.
Implicit Types (w : World Num) (t : Table Num) (df : ref) (c : string).

(** C1. [transform] applies its five steps in a fixed order, each on the
    output of the previous one: duplicate removal, replacement of the
    sentinel by a missing marker, removal of the rows with a missing
    marker, numeric coercion column by column, date normalization of the
    date-named columns.  The frame it returns holds the composition of
    the five steps on the input table, and the log records, in this
    order, the number of duplicates found among all rows of the input
    and the number of rows left after the missing rows are dropped. *)
Theorem transform_steps_in_order self df w t :
  heap w !! df = Some t →
  ∃ df' w',
    transform self df w = (Ok df', w') ∧
    heap w' !! df'
    = Some (step_date_normalization
              (step_numeric_coercion
                 (step_drop_missing
                    (step_normalize_missing
                       (step_deduplicate t))))) ∧
    log w' = log w ++ transform_log t ∧
    ∃ rest,
      transform_log t
      = (INFO, MsgTransforming)
        :: (INFO, MsgRemovedDuplicates
                    (Z.of_nat (length (rows t))
                     - Z.of_nat (length (rows (step_deduplicate t)))))
        :: (INFO, MsgRemaining
                    (length (rows (step_drop_missing
                                     (step_normalize_missing
                                        (step_deduplicate t))))))
        :: rest.
Proof.
  intros Ht.
  destruct (transform_returns self df w t Ht) as (df' & w' & Hrun & Hout & Hlog & _).
  exists df', w'. split; [done |]. split; [done |]. split; [done |].
  by eexists.
Qed.

(** C2 (amended). In the table [transform] returns no cell equals the
    sentinel ["?"].  The rows that enter the numeric coercion, that is
    the rows left by the drop-missing step, are pairwise distinct, and
    the returned table has one row for each of them: no two rows of the
    output come from equal rows.  (Two rows of the output can still be
    equal, when coercion or date normalization gives different cells
    the same value.) *)
Theorem transform_output_sentinel_free self df w t :
  heap w !! df = Some t →
  ∃ df' w' out,
    transform self df w = (Ok df', w') ∧
    heap w' !! df' = Some out ∧
    ¬ has_sentinel out ∧
    NoDup (rows (steps_1_to_3 t)) ∧
    out = step_date_normalization (step_numeric_coercion (steps_1_to_3 t)) ∧
    length (rows out) = length (rows (steps_1_to_3 t)).
Proof.
  intros Ht.
  destruct (transform_returns self df w t Ht) as (df' & w' & Hrun & Hout & _).
  exists df', w', (transform_steps t). split; [done |]. split; [done |].
  split; [| split; [apply NoDup_steps_1_to_3 | split; [done |]]].
  - intros (r & Hr & Hq).
    pose proof (transform_steps_no_sentinel t) as Hall.
    rewrite Forall_forall in Hall. specialize (Hall r Hr).
    rewrite Forall_forall in Hall. by apply (Hall _ Hq).
  - apply transform_steps_rows_length.
Qed.


(** C4. [transform] is total: on every live frame it returns a frame and
    raises nothing.  On a table without rows every step leaves the table
    as it is, and the returned table equals the input. *)
Theorem transform_total self df w t :
  heap w !! df = Some t →
  ∃ df' w' out,
    transform self df w = (Ok df', w') ∧
    heap w' !! df' = Some out ∧
    (rows t = [] →
       step_deduplicate t = t ∧
       step_normalize_missing t = t ∧
       step_drop_missing t = t ∧
       step_numeric_coercion t = t ∧
       step_date_normalization t = t ∧
       out = t).
Proof.
  intros Ht.
  destruct (transform_returns self df w t Ht) as (df' & w' & Hrun & Hout & _).
  exists df', w', (transform_steps t). split; [done |]. split; [done |].
  intros Hrows.
  assert (H1 : step_deduplicate t = t).
  { unfold step_deduplicate, table_drop_duplicates. rewrite Hrows.
    destruct t; simpl in *. by subst. }
  assert (H2 : step_normalize_missing t = t).
  { unfold step_normalize_missing, table_replace. rewrite Hrows.
    destruct t; simpl in *. by subst. }
  assert (H3 : step_drop_missing t = t).
  { unfold step_drop_missing, table_dropna. rewrite Hrows.
    destruct t; simpl in *. by subst. }
  pose proof (step_numeric_coercion_no_rows t Hrows) as H4.
  pose proof (step_date_normalization_no_rows t Hrows) as H5.
  repeat (split; [done |]).
  unfold transform_steps, steps_1_to_4, steps_1_to_3.
  by rewrite H1, H2, H3, H4, H5.
Qed.

(** C5. [load] never raises.  Whatever the frame and the URI, it returns
    normally and leaves the frames alone.  If creating the engine
    raises, or the write of the table raises, the exception is logged as
    an error and the store is unchanged; otherwise the table replaces
    the one stored under the configured name.  A run whose extraction
    succeeds therefore always returns normally and ends with the
    completion message. *)
Theorem load_never_raises self df w :
  ∃ w',
    load self df w = (Ok (), w') ∧
    heap w' = heap w ∧
    (∀ e, create_engine (db_uri self) = Raised e →
       log w' = log w ++ [(INFO, MsgLoading); (ERROR, MsgLoadFailed e)] ∧
       database w' = database w) ∧
    (∀ engine t e,
       create_engine (db_uri self) = Ok engine →
       heap w !! df = Some t →
       to_sql_failure engine (table_name self) t = Some e →
       log w' = log w ++ [(INFO, MsgLoading); (ERROR, MsgLoadFailed e)] ∧
       database w' = database w) ∧
    (∀ engine t,
       create_engine (db_uri self) = Ok engine →
       heap w !! df = Some t →
       to_sql_failure engine (table_name self) t = None →
       log w' = log w ++ [(INFO, MsgLoading);
                          (INFO, MsgLoaded (table_name self))] ∧
       database w' = <[table_name self := t]> (database w)) ∧
    (∀ t0, fetch_ucirepo (data_id self) = Ok t0 →
       ∃ w'', run self w = (Ok (), w'') ∧
              last (log w'') = Some (INFO, MsgCompleted)).
Proof.
  eexists. split; [apply load_run |].
  unfold load_attempt.
  split; [by repeat case_match |].
  split; [by intros e -> |].
  split; [by intros engine t e -> -> -> |].
  split; [by intros engine t -> -> -> |].
  intros t0 Hfetch. by eapply run_completes.
Qed.

(** C6. [transform] does not change its argument.  After the call the
    caller's reference still leads to the table it led to before, as
    does every other reference that was live; the result is a frame
    that did not exist before the call. *)
Theorem transform_preserves_argument self df w t :
  heap w !! df = Some t →
  ∃ df' w',
    transform self df w = (Ok df', w') ∧
    heap w' !! df = Some t ∧
    (∀ r t', heap w !! r = Some t' → heap w' !! r = Some t') ∧
    heap w !! df' = None ∧
    df' ≠ df.
Proof.
  intros Ht.
  destruct (transform_returns self df w t Ht)
    as (df' & w' & Hrun & _ & _ & _ & Hnew & Hold).
  exists df', w'. split; [done |]. split; [by apply Hold |].
  split; [done |]. split; [done |]. intros ->. congruence.
Qed.

(** C7. The date step works value by value on the date-named columns and
    leaves the other columns alone.  Let [s] be the values of column [c]
    when the step starts.  If the name of [c] does not contain "date",
    the returned table holds [s] in column [c].  If it does, and the
    conversion yields one result per value, then every value that parses
    as a date is replaced by its [YYYY-MM-DD] string of ten characters
    and every value that does not is replaced by a missing marker.  (A
    conversion that raises as a whole yields no per-value results; the
    column is then kept.) *)
Theorem date_normalization_per_value self df w t c :
  heap w !! df = Some t →
  wf_table t →
  c ∈ columns t →
  ∃ df' w' out s,
    transform self df w = (Ok df', w') ∧
    heap w' !! df' = Some out ∧
    out = step_date_normalization (steps_1_to_4 t) ∧
    table_getitem (steps_1_to_4 t) c = Some s ∧
    (is_date_column c = false → table_getitem out c = Some s) ∧
    (is_date_column c = true →
       (∀ ds, to_datetime_coerce s = Ok ds →
          ∃ v, table_getitem out c = Some v ∧
               length v = length s ∧
               ∀ i,
                 (∀ d, ds !! i = Some (Some d) →
                    v !! i = Some (CStr (strftime_ymd d)) ∧
                    String.length (strftime_ymd d) = 10%nat) ∧
                 (ds !! i = Some None → v !! i = Some CNA)) ∧
       (∀ e, to_datetime_coerce s = Raised e → table_getitem out c = Some s)).
Proof.
  intros Ht Hwf Hc.
  destruct (transform_returns self df w t Ht) as (df' & w' & Hrun & Hout & _).
  pose proof (steps_1_to_4_wf t Hwf) as Hwf4.
  destruct (table_getitem_is_Some (steps_1_to_4 t) c) as [s Hs].
  { by rewrite steps_1_to_4_columns. }
  exists df', w', (transform_steps t), s.
  split; [done |]. split; [done |]. split; [done |]. split; [done |].
  unfold transform_steps.
  rewrite step_date_normalization_getitem by done.
  unfold date_attempt. rewrite Hs.
  split; [by intros -> |]. intros ->. split.
  - intros ds Hds. rewrite Hds. simpl. exists (dt_strftime ds).
    split; [done |]. split.
    + unfold dt_strftime. rewrite length_map.
      by apply to_datetime_coerce_length.
    + intros i. unfold dt_strftime.
      split; [intros d Hd | intros Hd]; rewrite lookup_map, Hd; done.
  - intros e He. by rewrite He.
Qed.

(** C8 (amended). In the table [transform] returns, every cell of a
    date-named column whose conversion yields per-value results is a
    [YYYY-MM-DD] string or a missing marker, and a missing marker is
    left exactly where a value entering the date step does not parse as
    a date: position by position, the cell is the missing marker if and
    only if the value at that position does not parse, and it is the date
    string of the parsed date otherwise.  So the column is free of
    missing markers if and only if all of its values parse. *)
Theorem date_column_missing_iff_unparsed self df w t c :
  heap w !! df = Some t →
  wf_table t →
  c ∈ columns t →
  is_date_column c = true →
  ∃ df' w' out s,
    transform self df w = (Ok df', w') ∧
    heap w' !! df' = Some out ∧
    table_getitem (steps_1_to_4 t) c = Some s ∧
    ∀ ds, to_datetime_coerce s = Ok ds →
      ∃ v, table_getitem out c = Some v ∧
           length v = length s ∧
           length ds = length s ∧
           (∀ i, v !! i = Some CNA ↔ ds !! i = Some None) ∧
           (∀ i d, ds !! i = Some (Some d) →
                   v !! i = Some (CStr (strftime_ymd d))) ∧
           Forall (λ x, x = CNA ∨ ∃ d, x = CStr (strftime_ymd d)) v ∧
           (CNA ∈ v ↔ None ∈ ds).
Proof.
  intros Ht Hwf Hc Hd.
  destruct (transform_returns self df w t Ht) as (df' & w' & Hrun & Hout & _).
  pose proof (steps_1_to_4_wf t Hwf) as Hwf4.
  destruct (table_getitem_is_Some (steps_1_to_4 t) c) as [s Hs].
  { by rewrite steps_1_to_4_columns. }
  exists df', w', (transform_steps t), s.
  split; [done |]. split; [done |]. split; [done |].
  intros ds Hds. exists (dt_strftime ds). unfold transform_steps.
  rewrite step_date_normalization_getitem by done.
  unfold date_attempt. rewrite Hd, Hs, Hds. simpl.
  pose proof (to_datetime_coerce_length _ _ Hds) as Hlen.
  split; [done |]. unfold dt_strftime.
  split; [by rewrite length_map |]. split; [done |].
  split; [| split; [| split]].
  - intros i. rewrite lookup_map.
    destruct (ds !! i) as [[d|]|]; simpl; split; done.
  - intros i d Hi. by rewrite lookup_map, Hi.
  - apply Forall_forall.
    intros x [[d|] [<- _]]%list_elem_of_In%in_map_iff; simpl; eauto.
  - split.
    + intros [[d|] [Hx Hin]]%list_elem_of_In%in_map_iff; [done |].
      by apply list_elem_of_In.
    + intros Hin. apply list_elem_of_In, in_map_iff.
      exists None. split; [done | by apply list_elem_of_In].
Qed.

(** C9. Deduplication is idempotent.  On a table whose rows are pairwise
    distinct the first step removes no row, and [transform] logs that
    zero duplicates were removed; in general, deduplicating twice gives
    the same table as deduplicating once. *)
Theorem deduplication_idempotent self df w t :
  heap w !! df = Some t →
  NoDup (rows t) →
  step_deduplicate t = t ∧
  (∀ t' : Table Num,
     step_deduplicate (step_deduplicate t') = step_deduplicate t') ∧
  ∃ df' w' rest,
    transform self df w = (Ok df', w') ∧
    log w' = log w ++ (INFO, MsgTransforming)
                      :: (INFO, MsgRemovedDuplicates 0) :: rest.
Proof.
  intros Ht Hnd.
  assert (Hid : ∀ t' : Table Num, NoDup (rows t') → step_deduplicate t' = t').
  { intros [cs rs] Hrs. unfold step_deduplicate, table_drop_duplicates.
    simpl in *. f_equal. apply drop_duplicates_from_NoDup; [done |].
    intros r _. apply not_elem_of_nil. }
  split; [by apply Hid |]. split.
  - intros t'. apply Hid. apply NoDup_drop_duplicates_from.
  - destruct (transform_returns self df w t Ht)
      as (df' & w' & Hrun & _ & Hlog & _).
    exists df', w'. eexists. split; [done |]. rewrite Hlog.
    unfold transform_log. rewrite (Hid t Hnd), Z.sub_diag. reflexivity.
Qed.

(** C10. [transform] keeps the columns: the returned table has the
    column names of the input, in the same order. *)
Theorem transform_preserves_columns self df w t :
  heap w !! df = Some t →
  ∃ df' w' out,
    transform self df w = (Ok df', w') ∧
    heap w' !! df' = Some out ∧
    columns out = columns t ∧
    (∀ t' : Table Num,
       columns (step_deduplicate t') = columns t' ∧
       columns (step_normalize_missing t') = columns t' ∧
       columns (step_drop_missing t') = columns t' ∧
       columns (step_numeric_coercion t') = columns t' ∧
       columns (step_date_normalization t') = columns t').
Proof.
  intros Ht.
  destruct (transform_returns self df w t Ht) as (df' & w' & Hrun & Hout & _).
  exists df', w', (transform_steps t). split; [done |]. split; [done |].
  split; [apply transform_steps_columns |].
  intros t'. repeat (split; [done |]).
  split; [apply step_numeric_coercion_columns
         | apply step_date_normalization_columns].
Qed.

End Claims.

(** * Further properties of the pipeline *)

(** ** The row steps of [transform] (lines 61-69) *)

Section RowSteps.
Context {Num : Type} `{EqDecision Num} `{!Library Num}.
Implicit Types (r : Row Num) (rs seen : list (Row Num)) (t : Table Num).
Implicit Types (w : World Num) (df : ref).

Lemma drop_duplicates_from_sublist seen rs :
  drop_duplicates_from seen rs `sublist_of` rs.
Proof.
  revert seen. induction rs as [|r rs IH]; intros seen; simpl.
  - constructor.
  - destruct (decide (r ∈ seen)).
    + apply sublist_cons, IH.
    + apply sublist_skip, IH.
Qed.

(** Filtering rows commutes with the removal of duplicates. *)
Lemma filter_drop_duplicates_from (P : Row Num → Prop)
    `{!∀ r, Decision (P r)} seen rs :
  filter P (drop_duplicates_from seen rs)
  = drop_duplicates_from (filter P seen) (filter P rs).
Proof.
  revert seen. induction rs as [|r rs IH]; intros seen; simpl; [done |].
  destruct (decide (r ∈ seen)) as [Hin|Hnin].
  - rewrite IH. destruct (decide (P r)) as [Hr|Hr].
    + rewrite (filter_cons_True P) by done. simpl.
      rewrite decide_True; [done |]. by apply list_elem_of_filter.
    + by rewrite (filter_cons_False P) by done.
  - destruct (decide (P r)) as [Hr|Hr].
    + rewrite !(filter_cons_True P) by done. simpl.
      rewrite decide_False.
      * f_equal. rewrite IH. by rewrite (filter_cons_True P) by done.
      * by intros [_ ?]%list_elem_of_filter.
    + rewrite !(filter_cons_False P) by done.
      rewrite IH. by rewrite (filter_cons_False P) by done.
Qed.

(** X1. Step 1 keeps one copy of every row: the deduplicated rows are a
    subsequence of the input rows, hold every input row, and hold no row
    twice.  The copy kept is the first: a row appended at the end of a
    table survives exactly when it does not occur before. *)
Theorem deduplicate_keeps_first_occurrence t :
  rows (step_deduplicate t) `sublist_of` rows t ∧
  NoDup (rows (step_deduplicate t)) ∧
  (∀ r, r ∈ rows (step_deduplicate t) ↔ r ∈ rows t) ∧
  (∀ r, rows (step_deduplicate (mkTable (columns t) (rows t ++ [r])))
        = rows (step_deduplicate t) ++ (if decide (r ∈ rows t) then [] else [r])).
Proof.
  unfold step_deduplicate, table_drop_duplicates; simpl.
  split; [apply drop_duplicates_from_sublist |].
  split; [apply NoDup_drop_duplicates_from |].
  split.
  - intros r. rewrite elem_of_drop_duplicates_from.
    split; [by intros [? _] |]. intros Hr. split; [done | apply not_elem_of_nil].
  - intros r. by rewrite drop_duplicates_from_snoc.
Qed.

(** X2. The rows that survive steps 1 to 3 do not depend on the order of
    duplicate removal and missing-value removal: removing the duplicates
    first, as the code does, gives the same table as removing them last.
    (The order shows only in the two row counts that are logged.) *)
Theorem deduplicate_commutes_with_drop_missing t :
  step_drop_missing (step_normalize_missing (step_deduplicate t))
  = step_deduplicate (step_drop_missing (step_normalize_missing t)).
Proof.
  destruct t as [cs rs].
  pose proof (rows_dropna_replace (mkTable cs (drop_duplicates_from [] rs))) as H1.
  pose proof (rows_dropna_replace (mkTable cs rs)) as H2.
  unfold step_drop_missing, step_normalize_missing, step_deduplicate,
    table_drop_duplicates, table_dropna, table_replace in *.
  simpl in *. f_equal. rewrite H1, H2.
  by rewrite filter_drop_duplicates_from.
Qed.

Lemma elem_of_steps_1_to_3_rows t r :
  r ∈ rows (steps_1_to_3 t) ↔ r ∈ rows t ∧ (CNA ∉ r) ∧ (CStr "?" ∉ r).
Proof.
  rewrite steps_1_to_3_rows.
  rewrite list_elem_of_filter, elem_of_drop_duplicates_from.
  rewrite clean_row_spec. split.
  - by intros [? [? _]].
  - intros [? ?]. split; [done |]. split; [done | apply not_elem_of_nil].
Qed.

(** X3. Steps 1 to 3 keep exactly the rows of the input that hold neither
    a missing value nor the sentinel, in their order of first occurrence:
    the surviving rows are a subsequence of the input rows, and a row
    survives if and only if it occurs in the input and is clean. *)
Theorem surviving_rows_are_the_clean_rows t :
  rows (steps_1_to_3 t) `sublist_of` rows t ∧
  ∀ r, r ∈ rows (steps_1_to_3 t)
       ↔ r ∈ rows t ∧ (CNA ∉ r) ∧ (CStr "?" ∉ r).
Proof.
  rewrite steps_1_to_3_rows. split.
  - etransitivity; [apply sublist_filter | apply drop_duplicates_from_sublist].
  - intros r. rewrite <- steps_1_to_3_rows.
    apply elem_of_steps_1_to_3_rows.
Qed.

(** X4. [transform] never adds a row: the returned table has as many
    rows as survive step 3, which is at most the number of rows left by
    step 1, which is at most the number of rows of the input; the number
    of removed duplicates it logs is never negative. *)
Theorem transform_never_adds_rows self df w t :
  heap w !! df = Some t →
  ∃ df' w' out n rest,
    transform self df w = (Ok df', w') ∧
    heap w' !! df' = Some out ∧
    length (rows out) = length (rows (steps_1_to_3 t)) ∧
    (length (rows (steps_1_to_3 t)) ≤ length (rows (step_deduplicate t)))%nat ∧
    (length (rows (step_deduplicate t)) ≤ length (rows t))%nat ∧
    log w' = log w ++ (INFO, MsgTransforming)
                      :: (INFO, MsgRemovedDuplicates n) :: rest ∧
    (0 ≤ n)%Z.
Proof.
  intros Ht.
  destruct (transform_returns self df w t Ht)
    as (df' & w' & Hrun & Hout & Hlog & _).
  assert (Hdd : (length (rows (step_deduplicate t)) ≤ length (rows t))%nat).
  { apply sublist_length, drop_duplicates_from_sublist. }
  exists df', w', (transform_steps t). eexists _, _.
  split; [done |]. split; [done |].
  split; [apply transform_steps_rows_length |].
  split; [| split; [done | split; [by rewrite Hlog |]]].
  - rewrite steps_1_to_3_rows. apply length_filter.
  - lia.
Qed.

End RowSteps.

(** ** The numeric loop of [transform] (lines 71-76) *)

Section NumericLoop.
Context {Num : Type} `{EqDecision Num} `{!Library Num}.
Implicit Types (t : Table Num) (c : string) (w : World Num) (df : ref).

(** Assigning to a column the values it holds changes nothing. *)
Lemma table_setitem_getitem_id t c s :
  table_getitem t c = Some s → table_setitem t c s = t.
Proof.
  unfold table_getitem, table_setitem.
  destruct (index_of c (columns t)) as [j|]; simpl; [| done].
  intros [= <-]. destruct t as [cs rs]; simpl. f_equal.
  apply list_eq. intros i. rewrite list_lookup_imap.
  destruct (rs !! i) as [r|] eqn:Hr; simpl; [| done]. f_equal.
  rewrite lookup_map, Hr. simpl. unfold cell_at.
  destruct (r !! j) as [x|] eqn:Hx; simpl.
  - by apply list_insert_id.
  - apply list_insert_ge. by apply lookup_ge_None.
Qed.

Lemma numeric_of_cell_fixed (x y : Cell Num) :
  numeric_of_cell x = Ok y → numeric_of_cell y = Ok y.
Proof.
  destruct x as [s|n|]; simpl.
  - destruct (parse_numeric s) as [n|e]; simpl; [| done]. by intros [= <-].
  - by intros [= <-].
  - by intros [= <-].
Qed.

Lemma result_mapM_fixed {A} (f : A → Result A) (v : list A) :
  Forall (λ y, f y = Ok y) v → result_mapM f v = Ok v.
Proof.
  induction 1 as [|y v Hy _ IH]; simpl; [done |]. by rewrite Hy, IH.
Qed.

Lemma numeric_column_fixed t c :
  (∀ s, table_getitem t c = Some s →
        Forall (λ y, numeric_of_cell y = Ok y) s) →
  numeric_column t c = t ∧ (c ∈ columns t → numeric_message t c = []).
Proof.
  intros Hs. unfold numeric_column, numeric_message, numeric_attempt.
  destruct (table_getitem t c) as [s|] eqn:Hget.
  - rewrite (result_mapM_fixed _ _ (Hs s eq_refl)).
    split; [by apply table_setitem_getitem_id | done].
  - split; [done |]. intros [s Hs']%table_getitem_is_Some. congruence.
Qed.

Lemma foldl_fixed {A B} (f : A → B → A) (a : A) (l : list B) :
  (∀ b, f a b = a) → foldl f a l = a.
Proof. intros Hf. induction l as [|b l IH]; simpl; [done |]. by rewrite Hf. Qed.

Lemma loop_log_fixed (f : Table Num → string → Table Num)
    (msg : Table Num → string → list LogRecord) t (cs : list string) :
  (∀ c, f t c = t) → (∀ c, c ∈ cs → msg t c = []) → loop_log f msg t cs = [].
Proof.
  intros Hf. induction cs as [|c cs IH]; intros Hmsg; simpl; [done |].
  rewrite Hf, (Hmsg c) by by left. simpl. apply IH.
  intros c' Hc'. apply Hmsg. by right.
Qed.

(** The values of a column are cells of the rows, or missing values
    where a row is too short. *)
Lemma table_getitem_cells_or_missing (P : Cell Num → Prop) t c s :
  P CNA →
  Forall (Forall P) (rows t) →
  table_getitem t c = Some s →
  Forall P s.
Proof.
  intros Hna Hrows. unfold table_getitem.
  destruct (index_of c (columns t)) as [j|]; simpl; [| done].
  intros [= <-]. apply Forall_forall.
  intros x [r [<- Hr%list_elem_of_In]]%list_elem_of_In%in_map_iff.
  rewrite Forall_forall in Hrows. specialize (Hrows r Hr).
  unfold cell_at. destruct (r !! j) as [x|] eqn:Hx; simpl; [| done].
  rewrite Forall_forall in Hrows. apply Hrows. by eapply list_elem_of_lookup_2.
Qed.

(** The pure reading of idempotence: converting a converted table
    changes nothing. *)
Lemma step_numeric_coercion_idempotent t :
  wf_table t →
  step_numeric_coercion (step_numeric_coercion t) = step_numeric_coercion t.
Proof.
  intros Hwf. set (t4 := step_numeric_coercion t).
  unfold step_numeric_coercion at 1. apply foldl_fixed. intros c.
  unfold numeric_column, numeric_attempt.
  destruct (table_getitem t4 c) as [s'|] eqn:Hs'; [| done].
  destruct (result_mapM numeric_of_cell s') as [v'|e'] eqn:Hv'; [| done].
  assert (v' = s') as ->; [| by apply table_setitem_getitem_id].
  unfold t4 in Hs'. rewrite step_numeric_coercion_getitem in Hs' by done.
  unfold numeric_attempt in Hs'.
  destruct (table_getitem t c) as [s|] eqn:Hs; [| done].
  destruct (result_mapM numeric_of_cell s) as [v|e] eqn:Hv.
  - injection Hs' as <-. apply result_mapM_Ok in Hv.
    rewrite result_mapM_fixed in Hv'; [congruence |].
    apply Forall_forall. intros y Hy.
    apply list_elem_of_lookup in Hy as [i Hi].
    destruct (Forall2_lookup_r _ _ _ _ _ Hv Hi) as (x & _ & Hx).
    by eapply numeric_of_cell_fixed.
  - injection Hs' as <-. congruence.
Qed.

(** X5. The numeric loop is idempotent.  Run on a frame of the data
    model it does not raise and leaves in the frame the table of step 4;
    run a second time on that frame it leaves every frame as it is. *)
Theorem numeric_loop_idempotent df w t :
  heap w !! df = Some t →
  wf_table t →
  ∃ w1 w2,
    (cols ← df_columns df; for_each cols (numeric_body df)) w = (Ok (), w1) ∧
    heap w1 !! df = Some (step_numeric_coercion t) ∧
    (cols ← df_columns df; for_each cols (numeric_body df)) w1 = (Ok (), w2) ∧
    heap w2 = heap w1.
Proof.
  intros Ht Hwf.
  assert (Hloop : ∀ w0 t0, heap w0 !! df = Some t0 →
            (cols ← df_columns df; for_each cols (numeric_body df)) w0
            = (Ok (), mkWorld (<[df := step_numeric_coercion t0]> (heap w0))
                        (log w0 ++ loop_log numeric_column numeric_message
                                     t0 (columns t0))
                        (database w0))).
  { intros w0 t0 Ht0.
    erewrite bind_run; [| by apply df_columns_run].
    by eapply for_each_run with (f := numeric_column) (msg := numeric_message);
      [apply numeric_body_run |]. }
  eexists _, _. split; [by apply Hloop |]. simpl.
  assert (Ht4 : <[df := step_numeric_coercion t]> (heap w) !! df
                = Some (step_numeric_coercion t)).
  { apply list_lookup_insert_eq. by eapply lookup_lt_Some. }
  split; [done |]. split; [by apply Hloop |]. simpl.
  rewrite step_numeric_coercion_idempotent by done.
  by rewrite list_insert_insert_eq.
Qed.

(** X6. A table that is already clean passes through [transform]
    unchanged.  If every cell of the input is a number, no two rows are
    equal and no column is date-named, the returned table equals the
    input, and the log reports zero duplicates, all rows remaining, and
    no warning. *)
Theorem transform_fixes_clean_numeric_table self df w t :
  heap w !! df = Some t →
  Forall (Forall (λ x : Cell Num, ∃ n, x = CNum n)) (rows t) →
  NoDup (rows t) →
  Forall (λ c, is_date_column c = false) (columns t) →
  ∃ df' w',
    transform self df w = (Ok df', w') ∧
    heap w' !! df' = Some t ∧
    log w' = log w ++ [(INFO, MsgTransforming);
                       (INFO, MsgRemovedDuplicates 0);
                       (INFO, MsgRemaining (length (rows t)))].
Proof.
  intros Ht Hnum Hnd Hdate.
  destruct (transform_returns self df w t Ht)
    as (df' & w' & Hrun & Hout & Hlog & _).
  assert (H1 : step_deduplicate t = t).
  { destruct t as [cs rs]. unfold step_deduplicate, table_drop_duplicates.
    simpl in *. f_equal. apply drop_duplicates_from_NoDup; [done |].
    intros r _. apply not_elem_of_nil. }
  assert (H3 : steps_1_to_3 t = t).
  { pose proof (steps_1_to_3_rows t) as Hrows.
    pose proof (steps_1_to_3_columns t) as Hcols.
    destruct (steps_1_to_3 t) as [cs3 rs3]. destruct t as [cs rs].
    simpl in *. subst cs3. f_equal. rewrite Hrows.
    rewrite (drop_duplicates_from_NoDup [] rs Hnd)
      by (intros r _; apply not_elem_of_nil).
    clear -Hnum. induction Hnum as [|r rs Hr _ IH]; [done |].
    rewrite filter_cons_True; [by rewrite IH |].
    apply clean_row_spec. rewrite Forall_forall in Hr.
    split; intros [n [=]]%Hr. }
  assert (Hfix : ∀ c, numeric_column t c = t ∧
                      (c ∈ columns t → numeric_message t c = [])).
  { intros c. apply numeric_column_fixed. intros s Hs.
    apply (table_getitem_cells_or_missing _ t c); [done | | done].
    eapply Forall_impl; [exact Hnum |]. intros r Hr.
    eapply Forall_impl; [exact Hr |]. by intros x [n ->]. }
  assert (H4 : steps_1_to_4 t = t).
  { unfold steps_1_to_4. rewrite H3. unfold step_numeric_coercion.
    apply foldl_fixed. intros c. apply Hfix. }
  assert (Hnodate : date_columns t = []).
  { unfold date_columns. clear -Hdate.
    induction Hdate as [|c cs Hc _ IH]; [done |].
    rewrite filter_cons_False; [done | congruence]. }
  exists df', w'. split; [done |]. split.
  - rewrite Hout. unfold transform_steps, step_date_normalization.
    by rewrite H4, Hnodate.
  - rewrite Hlog. f_equal. unfold transform_log.
    rewrite H1, H3, H4, Hnodate, Z.sub_diag. simpl.
    rewrite loop_log_fixed; [done | apply Hfix | apply Hfix].
Qed.

(** X7. What the unit test of the repository checks on its one sample,
    for every table of the data model: a column that is not date-named
    and whose values in the input are all numbers, numeric text, the
    sentinel or missing comes out of [transform] holding numbers only,
    and no warning is logged for it. *)
Theorem numeric_or_sentinel_column_comes_out_numeric self df w t c s0 :
  heap w !! df = Some t →
  wf_table t →
  table_getitem t c = Some s0 →
  is_date_column c = false →
  Forall (λ x, x = CNA ∨ x = CStr "?" ∨ ∃ n, numeric_of_cell x = Ok (CNum n)) s0 →
  ∃ df' w' out v,
    transform self df w = (Ok df', w') ∧
    heap w' !! df' = Some out ∧
    table_getitem out c = Some v ∧
    Forall (λ y, ∃ n, y = CNum n) v ∧
    log w' = log w ++ transform_log t ∧
    (WARNING, MsgNotNumeric c) ∉ transform_log t.
Proof.
  intros Ht Hwf Hs0 Hd Hall.
  destruct (transform_returns self df w t Ht)
    as (df' & w' & Hrun & Hout & Hlog & _).
  pose proof (steps_1_to_3_wf t Hwf) as Hwf3.
  pose proof (table_getitem_elem _ _ _ Hs0) as Hc.
  destruct (table_getitem_is_Some (steps_1_to_3 t) c) as [s Hs]; [done |].
  (* every value that reaches the loop converts to a number *)
  assert (Hconv : Forall (λ x, ∃ n, numeric_of_cell x = Ok (CNum n)) s).
  { destruct Hwf as (_ & Hlen & _).
    revert Hs Hs0. unfold table_getitem. rewrite steps_1_to_3_columns.
    destruct (index_of c (columns t)) as [j|] eqn:Hj; simpl; [| done].
    intros [= <-] [= <-]. apply Forall_forall.
    intros x [r [<- Hr%list_elem_of_In]]%list_elem_of_In%in_map_iff.
    apply elem_of_steps_1_to_3_rows in Hr as (Hr & Hna & Hq).
    rewrite Forall_forall in Hall.
    destruct (Hall (cell_at j r)) as [Hx|[Hx|Hx]]; [| | | done].
    - apply list_elem_of_In, in_map_iff. exists r.
      split; [done | by apply list_elem_of_In].
    - exfalso. rewrite Forall_forall in Hlen. specialize (Hlen r Hr).
      apply index_of_lookup, lookup_lt_Some in Hj. rewrite <- Hlen in Hj.
      apply lookup_lt_is_Some in Hj as [x Hxr]. unfold cell_at in Hx.
      rewrite Hxr in Hx. simpl in Hx. subst x.
      apply Hna. by eapply list_elem_of_lookup_2.
    - exfalso. rewrite Forall_forall in Hlen. specialize (Hlen r Hr).
      apply index_of_lookup, lookup_lt_Some in Hj. rewrite <- Hlen in Hj.
      apply lookup_lt_is_Some in Hj as [x Hxr]. unfold cell_at in Hx.
      rewrite Hxr in Hx. simpl in Hx. subst x.
      apply Hq. by eapply list_elem_of_lookup_2. }
  destruct (result_mapM_all_ok numeric_of_cell s) as [v Hv].
  { intros x Hx. rewrite Forall_forall in Hconv.
    destruct (Hconv x Hx) as [n Hn]. eauto. }
  exists df', w', (transform_steps t), v.
  split; [done |]. split; [done |].
  assert (Hatt : numeric_attempt (steps_1_to_3 t) c = Ok v).
  { unfold numeric_attempt. by rewrite Hs. }
  split; [| split; [| split; [done |]]].
  - unfold transform_steps.
    rewrite step_date_normalization_getitem by by apply steps_1_to_4_wf.
    rewrite Hd. unfold steps_1_to_4.
    rewrite step_numeric_coercion_getitem by done. by rewrite Hatt.
  - apply result_mapM_Ok in Hv. apply Forall_forall. intros y Hy.
    apply list_elem_of_lookup in Hy as [i Hi].
    destruct (Forall2_lookup_r _ _ _ _ _ Hv Hi) as (x & Hx & Hxy).
    rewrite Forall_forall in Hconv.
    destruct (Hconv x) as [n Hn]; [by eapply list_elem_of_lookup_2 |].
    exists n. congruence.
  - rewrite not_numeric_logged by done. intros [_ [e He]]. congruence.
Qed.

End NumericLoop.

(** ** The date loop and the log of [transform] (lines 78-87) *)

Section DateLoop.
Context {Num : Type} `{EqDecision Num} `{!Library Num}.
Implicit Types (t : Table Num) (c : string) (w : World Num) (df : ref).

Lemma date_loop_log t :
  wf_table t →
  loop_log date_column date_message t (date_columns t)
  = flat_map (date_message t) (date_columns t).
Proof.
  intros (Hnd & _).
  apply (loop_log_independent date_attempt);
    [apply date_attempt_reads_column | apply date_attempt_column | |].
  - unfold date_message. by intros ??? ->.
  - by apply NoDup_filter.
Qed.

(** The records of the date loop, for a record that is not one of the
    first loop or of the head of the log. *)
Lemma date_record_logged t (rec : LogRecord) :
  wf_table t →
  (∀ c, rec ≠ (WARNING, MsgNotNumeric c)) →
  rec ≠ (INFO, MsgTransforming) →
  (∀ n, rec ≠ (INFO, MsgRemovedDuplicates n)) →
  (∀ n, rec ≠ (INFO, MsgRemaining n)) →
  rec ∈ transform_log t
  ↔ ∃ c, c ∈ columns t ∧ is_date_column c = true ∧
         rec ∈ date_message (steps_1_to_4 t) c.
Proof.
  intros Hwf Hnum H1 H2 H3. unfold transform_log.
  rewrite date_loop_log by by apply steps_1_to_4_wf.
  rewrite !elem_of_app. split.
  - intros [Hx|[Hx|Hx]].
    + repeat (apply elem_of_cons in Hx as [Hx|Hx]; [by subst; congruence |]).
      by apply elem_of_nil in Hx.
    + apply elem_of_loop_log in Hx as (t' & c' & _ & Hx).
      unfold numeric_message in Hx. destruct (numeric_attempt t' c').
      * by apply elem_of_nil in Hx.
      * apply list_elem_of_singleton in Hx. by destruct (Hnum c').
    + apply list_elem_of_In, in_flat_map in Hx as (c & Hc & Hx).
      apply list_elem_of_In in Hc, Hx.
      apply list_elem_of_filter in Hc as [Hd Hc].
      rewrite steps_1_to_4_columns in Hc. by exists c.
  - intros (c & Hc & Hd & Hx). right; right.
    apply list_elem_of_In, in_flat_map. exists c.
    split; apply list_elem_of_In; [| done].
    apply list_elem_of_filter. by rewrite steps_1_to_4_columns.
Qed.

(** X8. Every date-named column gets one record of the date loop, and no
    other column gets any.  With [s] the values of column [c] when the
    loop starts: the success record for [c] is logged exactly when [c] is
    date-named and the conversion of [s] returns; the warning for [c]
    carrying the exception [e] is logged exactly when [c] is date-named
    and the conversion of [s] raises [e]. *)
Theorem date_loop_logs_one_record_per_date_column self df w t c :
  heap w !! df = Some t →
  wf_table t →
  c ∈ columns t →
  ∃ df' w' s,
    transform self df w = (Ok df', w') ∧
    log w' = log w ++ transform_log t ∧
    table_getitem (steps_1_to_4 t) c = Some s ∧
    ((INFO, MsgDateStandardized c) ∈ transform_log t
     ↔ is_date_column c = true ∧ ∃ ds, to_datetime_coerce s = Ok ds) ∧
    (∀ e, (WARNING, MsgDateFailed c e) ∈ transform_log t
          ↔ is_date_column c = true ∧ to_datetime_coerce s = Raised e).
Proof.
  intros Ht Hwf Hc.
  destruct (transform_returns self df w t Ht)
    as (df' & w' & Hrun & _ & Hlog & _).
  destruct (table_getitem_is_Some (steps_1_to_4 t) c) as [s Hs].
  { by rewrite steps_1_to_4_columns. }
  exists df', w', s. split; [done |]. split; [done |]. split; [done |].
  assert (Hmsg : ∀ c', c' ∈ columns t →
            ∀ rec, rec ∈ date_message (steps_1_to_4 t) c' →
                   rec = (INFO, MsgDateStandardized c') ∨
                   ∃ e, rec = (WARNING, MsgDateFailed c' e)).
  { intros c' _ rec. unfold date_message.
    destruct (date_attempt (steps_1_to_4 t) c');
      intros ->%list_elem_of_singleton; eauto. }
  assert (Hown : date_message (steps_1_to_4 t) c
                 = match to_datetime_coerce s with
                   | Ok _ => [(INFO, MsgDateStandardized c)]
                   | Raised e => [(WARNING, MsgDateFailed c e)]
                   end).
  { unfold date_message, date_attempt. rewrite Hs.
    by destruct (to_datetime_coerce s). }
  split.
  - rewrite date_record_logged by done. split.
    + intros (c' & Hc' & Hd & Hrec).
      destruct (Hmsg c' Hc' _ Hrec) as [[= <-]|[e [=]]].
      split; [done |]. rewrite Hown in Hrec.
      destruct (to_datetime_coerce s) as [ds|e]; [by eexists |].
      by apply list_elem_of_singleton in Hrec.
    + intros [Hd [ds Hds]]. exists c. split; [done |]. split; [done |].
      rewrite Hown, Hds. by left.
  - intros e. rewrite date_record_logged by done. split.
    + intros (c' & Hc' & Hd & Hrec).
      destruct (Hmsg c' Hc' _ Hrec) as [[=]|[e' [= <- <-]]].
      split; [done |]. rewrite Hown in Hrec.
      destruct (to_datetime_coerce s) as [ds|e'].
      * by apply list_elem_of_singleton in Hrec.
      * apply list_elem_of_singleton in Hrec. congruence.
    + intros [Hd He]. exists c. split; [done |]. split; [done |].
      rewrite Hown, He. by left.
Qed.

(** X9. [transform] leaves the store alone and logs nothing at level
    ERROR: its records are the three INFO records of the row steps, the
    warnings of the numeric loop, and the records of the date loop. *)
Theorem transform_leaves_store_and_logs_no_error self df w t :
  heap w !! df = Some t →
  ∃ df' w',
    transform self df w = (Ok df', w') ∧
    database w' = database w ∧
    log w' = log w ++ transform_log t ∧
    ∀ rec, rec ∈ transform_log t →
      rec.1 ≠ ERROR ∧
      (rec = (INFO, MsgTransforming) ∨
       (∃ n, rec = (INFO, MsgRemovedDuplicates n)) ∨
       (∃ n, rec = (INFO, MsgRemaining n)) ∨
       (∃ c, rec = (WARNING, MsgNotNumeric c)) ∨
       (∃ c, rec = (INFO, MsgDateStandardized c)) ∨
       (∃ c e, rec = (WARNING, MsgDateFailed c e))).
Proof.
  intros Ht.
  destruct (transform_returns self df w t Ht)
    as (df' & w' & Hrun & _ & Hlog & Hdb & _).
  exists df', w'. split; [done |]. split; [done |]. split; [done |].
  intros rec. unfold transform_log. rewrite !elem_of_app.
  intros [Hx|[Hx|Hx]].
  - repeat (apply elem_of_cons in Hx as [->|Hx]; [split; [done | eauto 7] |]).
    by apply elem_of_nil in Hx.
  - apply elem_of_loop_log in Hx as (t' & c' & _ & Hx).
    unfold numeric_message in Hx. destruct (numeric_attempt t' c').
    + by apply elem_of_nil in Hx.
    + apply list_elem_of_singleton in Hx as ->. split; [done | eauto 7].
  - apply elem_of_loop_log in Hx as (t' & c' & _ & Hx).
    unfold date_message in Hx. destruct (date_attempt t' c');
      apply list_elem_of_singleton in Hx as ->; (split; [done | eauto 8]).
Qed.

(** X19. [transform] returns a table of the data model whenever it is
    given one: the column names of the result are unique, every row has
    one cell per column, and the result has as many rows in every
    column. *)
Theorem transform_preserves_well_formedness self df w t :
  heap w !! df = Some t →
  wf_table t →
  ∃ df' w' out,
    transform self df w = (Ok df', w') ∧
    heap w' !! df' = Some out ∧
    wf_table out ∧
    ∀ c, c ∈ columns out →
      ∃ v, table_getitem out c = Some v ∧ length v = length (rows out).
Proof.
  intros Ht Hwf.
  destruct (transform_returns self df w t Ht) as (df' & w' & Hrun & Hout & _).
  exists df', w', (transform_steps t). split; [done |]. split; [done |].
  split.
  - unfold transform_steps.
    apply foldl_update_wf; [apply date_attempt_column |].
    by apply steps_1_to_4_wf.
  - intros c Hc. destruct (table_getitem_is_Some _ _ Hc) as [v Hv].
    exists v. split; [done |]. by eapply table_getitem_length.
Qed.

End DateLoop.

(** ** [extract], [load] and [run] (lines 32-43 and 89-112) *)

Section EndToEnd.
Context {Num : Type} `{EqDecision Num} `{!Library Num}.
Implicit Types (t : Table Num) (w : World Num) (df : ref).

(** X10. A successful [extract] returns a reference to a new frame that
    holds exactly the fetched table; the frames that were live are
    untouched, the store is untouched, and the log gains the start
    message and the shape of the fetched table. *)
Theorem extract_returns_fetched_table self w t0 :
  fetch_ucirepo (data_id self) = Ok t0 →
  ∃ df w',
    extract self w = (Ok df, w') ∧
    heap w !! df = None ∧
    heap w' !! df = Some t0 ∧
    (∀ r t', heap w !! r = Some t' → heap w' !! r = Some t') ∧
    database w' = database w ∧
    log w' = log w ++ [(INFO, MsgExtracting);
                       (INFO, MsgExtracted (length (rows t0))
                                (length (columns t0)))].
Proof.
  intros Hfetch. eexists _, _. split; [by apply extract_run |]. simpl.
  split; [apply lookup_ge_None; lia |].
  split; [by apply list_lookup_middle |].
  split; [| done]. intros r t' Hr. by apply lookup_app_l_Some.
Qed.

(** X11. A failed fetch makes [extract] raise the same exception to its
    caller: no frame is created, the store is untouched, and only the
    start message has been logged. *)
Theorem extract_raises_fetch_error self w e :
  fetch_ucirepo (data_id self) = Raised e →
  ∃ w',
    extract self w = (Raised e, w') ∧
    heap w' = heap w ∧
    database w' = database w ∧
    log w' = log w ++ [(INFO, MsgExtracting)].
Proof.
  intros Hfetch. eexists. split; [by apply extract_raised |]. done.
Qed.

(** What [run] comes to when the extraction succeeds. *)
Lemma run_run self w t0 :
  fetch_ucirepo (data_id self) = Ok t0 →
  let h := heap w ++ [t0; step_normalize_missing (step_deduplicate t0);
                      transform_steps t0] in
  let l := log w ++ [(INFO, MsgStarting); (INFO, MsgExtracting);
                     (INFO, MsgExtracted (length (rows t0))
                              (length (columns t0)))]
                 ++ transform_log t0 in
  let attempt :=
    match create_engine (db_uri self) with
    | Raised e => Raised e
    | Ok engine =>
        match to_sql_failure engine (table_name self) (transform_steps t0) with
        | Some e => Raised e
        | None => Ok (transform_steps t0)
        end
    end in
  run self w
  = (Ok (),
     match attempt with
     | Ok t =>
         mkWorld h (l ++ [(INFO, MsgLoading);
                          (INFO, MsgLoaded (table_name self));
                          (INFO, MsgCompleted)])
           (<[table_name self := t]> (database w))
     | Raised e =>
         mkWorld h (l ++ [(INFO, MsgLoading); (ERROR, MsgLoadFailed e);
                          (INFO, MsgCompleted)])
           (database w)
     end).
Proof.
  intros Hfetch h l attempt. unfold run.
  erewrite bind_run; [| reflexivity].
  erewrite bind_run; [| by apply extract_run].
  erewrite bind_run;
    [| by apply transform_run; simpl; apply list_lookup_middle].
  erewrite bind_run; [| by apply load_run].
  unfold load_attempt, logging_info, logging.
  subst attempt h l.
  generalize (transform_log t0) (transform_steps t0)
    (step_normalize_missing (step_deduplicate t0)).
  intros tl ts t2. simpl.
  rewrite length_app. simpl.
  replace (S (length (heap w) + 1)) with (length (heap w) + 2)%nat by lia.
  rewrite <- (app_assoc (heap w)). simpl.
  rewrite lookup_app_r by lia.
  replace (length (heap w) + 2 - length (heap w))%nat with 2%nat by lia.
  simpl.
  destruct (create_engine (db_uri self)) as [engine|e]; simpl.
  - destruct (to_sql_failure engine (table_name self) ts); simpl;
      do 2 f_equal; rewrite <- !app_assoc; reflexivity.
  - do 2 f_equal. rewrite <- !app_assoc. reflexivity.
Qed.

(** X12. Extract, transform and load compose: when the fetch succeeds,
    the engine is created and the store accepts the write, [run] returns
    normally, the store holds under the configured name the table of the
    five steps applied to the fetched table, every other table of the
    store is as before, and the log is the run's full sequence of
    records. *)
Theorem run_stores_the_transformed_table self w t0 engine :
  fetch_ucirepo (data_id self) = Ok t0 →
  create_engine (db_uri self) = Ok engine →
  to_sql_failure engine (table_name self) (transform_steps t0) = None →
  ∃ w',
    run self w = (Ok (), w') ∧
    database w' !! table_name self = Some (transform_steps t0) ∧
    (∀ name, name ≠ table_name self →
       database w' !! name = database w !! name) ∧
    (∀ r t', heap w !! r = Some t' → heap w' !! r = Some t') ∧
    log w'
    = log w ++ [(INFO, MsgStarting); (INFO, MsgExtracting);
                (INFO, MsgExtracted (length (rows t0)) (length (columns t0)))]
            ++ transform_log t0
            ++ [(INFO, MsgLoading); (INFO, MsgLoaded (table_name self));
                (INFO, MsgCompleted)].
Proof.
  intros Hfetch Hengine Hwrite. eexists. split; [by apply run_run |].
  rewrite Hengine, Hwrite. cbn [database heap log].
  split; [apply lookup_insert_eq |].
  split; [by intros name Hne; apply lookup_insert_ne |].
  split; [intros r t' Hr; by apply lookup_app_l_Some |].
  generalize (transform_log t0). intros tl.
  rewrite <- !app_assoc. reflexivity.
Qed.

(** X13. When the load fails, because the engine cannot be created or
    because the store refuses the write, [run] still returns normally:
    the store is exactly as before, and the log ends with the error
    record followed by the completion message. *)
Theorem run_reports_completion_after_failed_load self w t0 e :
  fetch_ucirepo (data_id self) = Ok t0 →
  (create_engine (db_uri self) = Raised e ∨
   ∃ engine, create_engine (db_uri self) = Ok engine ∧
             to_sql_failure engine (table_name self) (transform_steps t0)
             = Some e) →
  ∃ w' l,
    run self w = (Ok (), w') ∧
    database w' = database w ∧
    log w' = l ++ [(INFO, MsgLoading); (ERROR, MsgLoadFailed e);
                   (INFO, MsgCompleted)].
Proof.
  intros Hfetch Hfail. eexists _, _. split; [by apply run_run |].
  destruct Hfail as [He|(engine & Hengine & He)].
  - rewrite He. simpl. split; reflexivity.
  - rewrite Hengine, He. simpl. split; reflexivity.
Qed.

(** X14. A failed fetch aborts the run: [run] raises the exception of the
    fetch, having logged only the two start messages; nothing is
    transformed or loaded, no frame is created and the store is
    untouched. *)
Theorem run_aborts_on_fetch_error self w e :
  fetch_ucirepo (data_id self) = Raised e →
  ∃ w',
    run self w = (Raised e, w') ∧
    heap w' = heap w ∧
    database w' = database w ∧
    log w' = log w ++ [(INFO, MsgStarting); (INFO, MsgExtracting)].
Proof.
  intros Hfetch. unfold run.
  erewrite bind_run; [| reflexivity].
  erewrite bind_raised; [| by apply extract_raised].
  eexists. split; [reflexivity |]. simpl. by rewrite <- app_assoc.
Qed.

(** X15. A successful [load] replaces the table of the configured name:
    afterwards the store holds the loaded table under that name,
    whatever it held there before, and every other table is as before;
    the frames are untouched. *)
Theorem load_replaces_the_named_table self df w t engine :
  create_engine (db_uri self) = Ok engine →
  heap w !! df = Some t →
  to_sql_failure engine (table_name self) t = None →
  ∃ w',
    load self df w = (Ok (), w') ∧
    database w' !! table_name self = Some t ∧
    (∀ name, name ≠ table_name self →
       database w' !! name = database w !! name) ∧
    heap w' = heap w.
Proof.
  intros Hengine Ht Hwrite. eexists. split; [apply load_run |].
  unfold load_attempt. rewrite Hengine, Ht, Hwrite. simpl.
  split; [apply lookup_insert_eq |]. split; [| done].
  intros name Hne. by apply lookup_insert_ne.
Qed.

(** X16. The last successful load wins: loading one frame and then
    another leaves the store as loading the second alone does. *)
Theorem load_last_writer_wins self df1 df2 w t1 t2 engine :
  create_engine (db_uri self) = Ok engine →
  heap w !! df1 = Some t1 →
  heap w !! df2 = Some t2 →
  to_sql_failure engine (table_name self) t1 = None →
  to_sql_failure engine (table_name self) t2 = None →
  ∃ w1 w2 w2',
    load self df1 w = (Ok (), w1) ∧
    load self df2 w1 = (Ok (), w2) ∧
    load self df2 w = (Ok (), w2') ∧
    database w2 = database w2'.
Proof.
  intros Hengine Ht1 Ht2 Hw1 Hw2. eexists _, _, _.
  split; [apply load_run |]. split; [apply load_run |].
  split; [apply load_run |].
  unfold load_attempt. rewrite Hengine, Ht1, Hw1. simpl.
  rewrite Ht2, Hw2. simpl. apply insert_insert_eq.
Qed.

End EndToEnd.

(** ** The selection of the date columns (line 79) *)

Section DateColumns.

Lemma append_String (a : ascii) (p post : string) :
  String.append (String a p) post = String a (String.append p post).
Proof. reflexivity. Qed.

Lemma append_EmptyString (s : string) : String.append EmptyString s = s.
Proof. reflexivity. Qed.

Lemma prefix_append (p s : string) :
  String.prefix p s = true ↔ ∃ post, s = String.append p post.
Proof.
  revert s. induction p as [|a p IH]; intros s.
  - destruct s; simpl; split; eauto.
  - destruct s as [|b s]; simpl.
    + split; [done |]. intros [post Hpost]. by rewrite append_String in Hpost.
    + destruct (ascii_dec a b) as [->|Hne].
      * rewrite IH. split; intros [post Hpost]; exists post.
        -- by rewrite append_String, Hpost.
        -- rewrite append_String in Hpost. by injection Hpost.
      * split; [done |]. intros [post Hpost].
        rewrite append_String in Hpost. injection Hpost as ? _. congruence.
Qed.

Lemma contains_append (needle s : string) :
  contains needle s = true
  ↔ ∃ pre post, s = String.append pre (String.append needle post).
Proof.
  induction s as [|a s IH].
  - change (contains needle EmptyString)
      with (String.prefix needle EmptyString || false).
    rewrite orb_false_r, prefix_append. split.
    + intros [post Hpost]. by exists EmptyString, post.
    + intros (pre & post & Hs). destruct pre as [|b pre].
      * rewrite append_EmptyString in Hs. by exists post.
      * by rewrite append_String in Hs.
  - change (contains needle (String a s))
      with (String.prefix needle (String a s) || contains needle s).
    rewrite orb_true_iff, prefix_append, IH. split.
    + intros [[post Hpost]|(pre & post & Hs)].
      * by exists EmptyString, post.
      * exists (String a pre), post. by rewrite append_String, Hs.
    + intros (pre & post & Hs). destruct pre as [|b pre].
      * rewrite append_EmptyString in Hs. left. by exists post.
      * rewrite append_String in Hs. right. injection Hs as _ Hs.
        by exists pre, post.
Qed.

Lemma lower_ascii_idempotent (a : ascii) :
  lower_ascii (lower_ascii a) = lower_ascii a.
Proof. destruct a as [[] [] [] [] [] [] [] []]; reflexivity. Qed.

Lemma lower_idempotent (s : string) : lower (lower s) = lower s.
Proof.
  induction s as [|a s IH]; simpl; [done |].
  by rewrite lower_ascii_idempotent, IH.
Qed.

(** X18. A column is date-named exactly when its lower-cased name can be
    cut as a text, then ["date"], then a text; the test does not see the
    case of letters: a name and its lower-cased form are classified
    alike.  The date columns of a table are its date-named columns, in
    the order of the table. *)
Theorem date_columns_are_the_names_containing_date {Num : Type}
    (t : Table Num) (c : string) :
  (is_date_column c = true
   ↔ ∃ pre post,
       lower c = String.append pre (String.append "date" post)) ∧
  is_date_column (lower c) = is_date_column c ∧
  date_columns t `sublist_of` columns t ∧
  (c ∈ date_columns t ↔ c ∈ columns t ∧ is_date_column c = true).
Proof.
  split; [apply contains_append |].
  split; [unfold is_date_column; by rewrite lower_idempotent |].
  unfold date_columns. split; [apply sublist_filter |].
  rewrite list_elem_of_filter. naive_solver.
Qed.

End DateColumns.

(** * The pipeline on concrete tables *)

Import TestLibrary.

Example is_date_column_examples :
  is_date_column "visit_date" = true ∧
  is_date_column "Date_Of_Birth" = true ∧
  is_date_column "LASTUPDATED" = true ∧
  is_date_column "age" = false ∧
  is_date_column "dat" = false.
Proof. repeat split. Qed.

Example strftime_ymd_examples :
  strftime_ymd (mkDate 2020 1 16) = "2020-01-16"%string ∧
  strftime_ymd (mkDate 1999 12 31) = "1999-12-31"%string.
Proof. split; reflexivity. Qed.

(** The scenario of the specification: the third row repeats the first,
    the second holds the sentinel; two rows remain, all columns numeric. *)
Example transform_sample :
  transform etl 0 (world_with sample)
  = (Ok 2%nat,
     mkWorld
       [sample;
        mkTable ["age"; "sex"; "cp"; "chol"]
          [[CStr "29"; CNum 1; CNum 0; CNum 240];
           [CStr "45"; CNum 0; CNum 1; CNA];
           [CStr "60"; CNum 1; CNum 3; CNum 190]];
        mkTable ["age"; "sex"; "cp"; "chol"]
          [[CNum 29; CNum 1; CNum 0; CNum 240];
           [CNum 60; CNum 1; CNum 3; CNum 190]]]%Z
       [(INFO, MsgTransforming); (INFO, MsgRemovedDuplicates 1);
        (INFO, MsgRemaining 2)]
       ∅).
Proof. reflexivity. Qed.

(** The unit test of the repository: no ["?"] remains, and the columns
    [age] and [chol] are numeric. *)
Example transform_unit_test_sample :
  (transform etl 0 (world_with unit_test_sample)).2.(heap) !! 2%nat
  = Some (mkTable ["age"; "sex"; "cp"; "chol"]
            [[CNum 29; CNum 1; CNum 0; CNum 240];
             [CNum 60; CNum 1; CNum 3; CNum 190]]%Z).
Proof. reflexivity. Qed.

(** Duplicates are counted on the raw rows, before the rows with a
    missing value are dropped. *)
Example transform_sentinel_twice :
  (transform etl 0 (world_with sentinel_twice)).2.(log)
  = [(INFO, MsgTransforming); (INFO, MsgRemovedDuplicates 1);
     (INFO, MsgRemaining 0)].
Proof. reflexivity. Qed.

Example transform_visits :
  (transform etl 0 (world_with visits)).2.(heap) !! 2%nat
  = Some (mkTable ["id"; "visit_date"]
            [[CNum 1; CStr "2020-01-15"];
             [CNum 2; CStr "2020-01-16"];
             [CNum 3; CNA]]%Z).
Proof. reflexivity. Qed.

(** ** Instances of the theorems, and the inputs on which two claims fail *)

Lemma transform_steps_in_order_sample :
  heap (world_with sample) !! 0%nat = Some sample ∧
  ∃ df' w',
    transform etl 0 (world_with sample) = (Ok df', w') ∧
    heap w' !! df'
    = Some (step_date_normalization
              (step_numeric_coercion
                 (step_drop_missing
                    (step_normalize_missing (step_deduplicate sample))))).
Proof.
  split; [reflexivity |].
  destruct (transform_steps_in_order etl 0 (world_with sample) sample)
    as (df' & w' & Hrun & Hout & _); [reflexivity |].
  by exists df', w'.
Defined.

(** The claim C2 as stated: no sentinel and no two equal rows. *)
Lemma mixed_ages_output_has_equal_rows :
  wf_table mixed_ages ∧
  NoDup (rows mixed_ages) ∧
  transform etl 0 (world_with mixed_ages)
  = (Ok 2%nat, mkWorld [mixed_ages; mixed_ages; mixed_ages_output]
                 [(INFO, MsgTransforming); (INFO, MsgRemovedDuplicates 0);
                  (INFO, MsgRemaining 2)] ∅) ∧
  ¬ (¬ has_sentinel mixed_ages_output ∧ NoDup (rows mixed_ages_output)).
Proof.
  split; [unfold wf_table; compute_done |].
  split; [compute_done |].
  split; [reflexivity |].
  simpl. intros [_ Hnd]. apply NoDup_cons in Hnd as [Hnin _].
  apply Hnin. by left.
Qed.

Lemma transform_output_sentinel_free_sample :
  heap (world_with sample) !! 0%nat = Some sample ∧
  ∃ df' w' out,
    transform etl 0 (world_with sample) = (Ok df', w') ∧
    heap w' !! df' = Some out ∧
    ¬ has_sentinel out ∧
    NoDup (rows (steps_1_to_3 sample)) ∧
    out = step_date_normalization (step_numeric_coercion (steps_1_to_3 sample)) ∧
    length (rows out) = length (rows (steps_1_to_3 sample)).
Proof.
  split; [reflexivity |].
  apply (transform_output_sentinel_free etl 0 (world_with sample) sample).
  reflexivity.
Defined.


Lemma transform_total_no_rows :
  heap (world_with no_rows) !! 0%nat = Some no_rows ∧
  rows no_rows = [] ∧
  ∃ df' w',
    transform etl 0 (world_with no_rows) = (Ok df', w') ∧
    heap w' !! df' = Some no_rows.
Proof.
  split; [reflexivity |]. split; [reflexivity |].
  destruct (transform_total etl 0 (world_with no_rows) no_rows)
    as (df' & w' & out & Hrun & Hout & Hempty); [reflexivity |].
  destruct Hempty as (_ & _ & _ & _ & _ & ->); [reflexivity |].
  by exists df', w'.
Defined.

Lemma load_never_raises_unreachable :
  create_engine (db_uri etl_unreachable) = Ok (mkEngine (db_uri etl_unreachable)) ∧
  fetch_ucirepo (data_id etl_unreachable) = Ok sample ∧
  (∃ w', load etl_unreachable 0 (world_with sample) = (Ok (), w') ∧
         database w' = ∅ ∧
         ∃ e, log w' = [(INFO, MsgLoading); (ERROR, MsgLoadFailed e)]) ∧
  ∃ w'', run etl_unreachable empty_world = (Ok (), w'') ∧
         last (log w'') = Some (INFO, MsgCompleted).
Proof.
  split; [reflexivity |]. split; [reflexivity |].
  destruct (load_never_raises etl_unreachable 0 (world_with sample))
    as (w' & Hload & _ & _ & Hwrite & _ & _).
  destruct (Hwrite (mkEngine (db_uri etl_unreachable)) sample
              (Exception "OperationalError" "connection refused"))
    as [Hlog Hdb]; [reflexivity .. |].
  split.
  - exists w'. split; [done |]. split; [done |]. eexists. exact Hlog.
  - destruct (load_never_raises etl_unreachable 0 empty_world)
      as (_ & _ & _ & _ & _ & _ & Hrun).
    by apply (Hrun sample).
Defined.

Lemma transform_preserves_argument_sample :
  heap (world_with sample) !! 0%nat = Some sample ∧
  ∃ df' w',
    transform etl 0 (world_with sample) = (Ok df', w') ∧
    heap w' !! 0%nat = Some sample ∧
    (∀ r t', heap (world_with sample) !! r = Some t' → heap w' !! r = Some t') ∧
    heap (world_with sample) !! df' = None ∧
    df' ≠ 0%nat.
Proof.
  split; [reflexivity |].
  apply (transform_preserves_argument etl 0 (world_with sample) sample).
  reflexivity.
Defined.

Lemma date_normalization_per_value_visits :
  heap (world_with visits) !! 0%nat = Some visits ∧
  wf_table visits ∧
  "visit_date" ∈ columns visits ∧
  is_date_column "visit_date" = true ∧
  ∃ df' w' out,
    transform etl 0 (world_with visits) = (Ok df', w') ∧
    heap w' !! df' = Some out ∧
    table_getitem out "visit_date"
    = Some [CStr "2020-01-15"; CStr "2020-01-16"; CNA].
Proof.
  split; [reflexivity |].
  split; [unfold wf_table; compute_done |].
  split; [compute_done |].
  split; [reflexivity |].
  destruct (date_normalization_per_value etl 0 (world_with visits) visits "visit_date")
    as (df' & w' & out & s & Hrun & Hout & -> & _);
    [reflexivity | unfold wf_table; compute_done | compute_done |].
  exists df', w'. eexists. split; [done |]. split; [done |]. reflexivity.
Defined.

(** The claim C8 as stated: no cell of a date-named column is left
    missing. *)
Lemma checkups_output_has_missing_date :
  wf_table checkups ∧
  is_date_column "checkup_date" = true ∧
  transform etl 0 (world_with checkups)
  = (Ok 2%nat, mkWorld [checkups; checkups; checkups_output]
                 [(INFO, MsgTransforming); (INFO, MsgRemovedDuplicates 0);
                  (INFO, MsgRemaining 3);
                  (WARNING, MsgNotNumeric "checkup_date");
                  (INFO, MsgDateStandardized "checkup_date")] ∅) ∧
  table_getitem checkups_output "checkup_date"
  = Some [CStr "2020-01-15"; CStr "2020-01-16"; CNA] ∧
  ¬ (∀ v, table_getitem checkups_output "checkup_date" = Some v → CNA ∉ v).
Proof.
  split; [unfold wf_table; compute_done |].
  split; [reflexivity |].
  split; [reflexivity |]. split; [reflexivity |].
  intros Hnone. apply (Hnone _ eq_refl). compute_done.
Qed.

Lemma date_column_missing_iff_unparsed_checkups :
  heap (world_with checkups) !! 0%nat = Some checkups ∧
  wf_table checkups ∧
  "checkup_date" ∈ columns checkups ∧
  is_date_column "checkup_date" = true ∧
  ∃ df' w' out v,
    transform etl 0 (world_with checkups) = (Ok df', w') ∧
    heap w' !! df' = Some out ∧
    table_getitem out "checkup_date" = Some v ∧
    length v = 3%nat ∧
    v !! 0%nat = Some (CStr "2020-01-15") ∧
    v !! 1%nat = Some (CStr "2020-01-16") ∧
    v !! 2%nat = Some CNA.
Proof.
  split; [reflexivity |].
  split; [unfold wf_table; compute_done |].
  split; [compute_done |].
  split; [reflexivity |].
  destruct (date_column_missing_iff_unparsed etl 0 (world_with checkups)
              checkups "checkup_date")
    as (df' & w' & out & s & Hrun & Hout & Hs & Hds);
    [reflexivity | unfold wf_table; compute_done | compute_done | reflexivity |].
  assert (Hcol : s = [CStr "2020-01-15"; CStr "2020-01-16"; CStr "bad"]).
  { assert (Hs' : table_getitem (steps_1_to_4 checkups) "checkup_date"
                  = Some [CStr "2020-01-15"; CStr "2020-01-16"; CStr "bad"])
      by reflexivity.
    congruence. }
  subst s.
  destruct (Hds [Some (mkDate 2020 1 15); Some (mkDate 2020 1 16); None])
    as (v & Hv & Hlen & _ & Hna & Hdate & _); [reflexivity |].
  exists df', w', out, v. split; [done |]. split; [done |]. split; [done |].
  split; [done |].
  split; [exact (Hdate 0%nat _ eq_refl) |].
  split; [exact (Hdate 1%nat _ eq_refl) |].
  by apply Hna.
Defined.

Lemma deduplication_idempotent_visits :
  heap (world_with visits) !! 0%nat = Some visits ∧
  NoDup (rows visits) ∧
  step_deduplicate visits = visits ∧
  ∃ df' w' rest,
    transform etl 0 (world_with visits) = (Ok df', w') ∧
    log w' = log (world_with visits)
             ++ (INFO, MsgTransforming) :: (INFO, MsgRemovedDuplicates 0) :: rest.
Proof.
  split; [reflexivity |]. split; [compute_done |].
  destruct (deduplication_idempotent etl 0 (world_with visits) visits)
    as (Hid & _ & Hlog); [reflexivity | compute_done |].
  by split.
Defined.

Lemma transform_preserves_columns_sample :
  heap (world_with sample) !! 0%nat = Some sample ∧
  ∃ df' w' out,
    transform etl 0 (world_with sample) = (Ok df', w') ∧
    heap w' !! df' = Some out ∧
    columns out = ["age"; "sex"; "cp"; "chol"].
Proof.
  split; [reflexivity |].
  destruct (transform_preserves_columns etl 0 (world_with sample) sample)
    as (df' & w' & out & Hrun & Hout & Hcols & _); [reflexivity |].
  by exists df', w', out.
Defined.

(** ** Instances of the further properties *)

Lemma transform_never_adds_rows_witness :
  heap (world_with sample) !! 0%nat = Some sample ∧
  ∃ df' w' out,
    transform etl 0 (world_with sample) = (Ok df', w') ∧
    heap w' !! df' = Some out ∧
    (length (rows out) ≤ length (rows sample))%nat.
Proof.
  split; [reflexivity |].
  destruct (transform_never_adds_rows etl 0 (world_with sample) sample)
    as (df' & w' & out & n & rest & Hrun & Hout & H1 & H2 & H3 & _);
    [reflexivity |].
  exists df', w', out. split; [done |]. split; [done |]. lia.
Defined.

Lemma numeric_loop_idempotent_witness :
  heap (world_with sample) !! 0%nat = Some sample ∧
  wf_table sample ∧
  ∃ w1 w2,
    (cols ← df_columns 0; for_each cols (numeric_body 0)) (world_with sample)
    = (Ok (), w1) ∧
    heap w1 !! 0%nat = Some (step_numeric_coercion sample) ∧
    (cols ← df_columns 0; for_each cols (numeric_body 0)) w1 = (Ok (), w2) ∧
    heap w2 = heap w1.
Proof.
  split; [reflexivity |]. split; [unfold wf_table; compute_done |].
  apply (numeric_loop_idempotent 0 (world_with sample) sample);
    [reflexivity | unfold wf_table; compute_done].
Defined.

Lemma transform_fixes_clean_numeric_table_witness :
  heap (world_with clean_numeric) !! 0%nat = Some clean_numeric ∧
  Forall (Forall (λ x : Cell Z, ∃ n, x = CNum n)) (rows clean_numeric) ∧
  NoDup (rows clean_numeric) ∧
  Forall (λ c, is_date_column c = false) (columns clean_numeric) ∧
  ∃ df' w',
    transform etl 0 (world_with clean_numeric) = (Ok df', w') ∧
    heap w' !! df' = Some clean_numeric ∧
    log w' = [(INFO, MsgTransforming); (INFO, MsgRemovedDuplicates 0);
              (INFO, MsgRemaining 2)].
Proof.
  assert (Hnum : Forall (Forall (λ x : Cell Z, ∃ n, x = CNum n))
                   (rows clean_numeric)).
  { repeat constructor; by eexists. }
  assert (Hnd : NoDup (rows clean_numeric)) by compute_done.
  assert (Hdate : Forall (λ c, is_date_column c = false)
                    (columns clean_numeric)).
  { repeat constructor. }
  split; [reflexivity |]. split; [exact Hnum |]. split; [exact Hnd |].
  split; [exact Hdate |].
  apply (transform_fixes_clean_numeric_table etl 0 (world_with clean_numeric)
           clean_numeric eq_refl Hnum Hnd Hdate).
Defined.

Lemma numeric_or_sentinel_column_comes_out_numeric_witness :
  heap (world_with unit_test_sample) !! 0%nat = Some unit_test_sample ∧
  wf_table unit_test_sample ∧
  table_getitem unit_test_sample "age"
  = Some [CStr "29"; CStr "45"; CStr "?"; CStr "60"] ∧
  is_date_column "age" = false ∧
  ∃ df' w' out v,
    transform etl 0 (world_with unit_test_sample) = (Ok df', w') ∧
    heap w' !! df' = Some out ∧
    table_getitem out "age" = Some v ∧
    Forall (λ y, ∃ n, y = CNum n) v.
Proof.
  split; [reflexivity |]. split; [unfold wf_table; compute_done |].
  split; [reflexivity |]. split; [reflexivity |].
  destruct (numeric_or_sentinel_column_comes_out_numeric etl 0
              (world_with unit_test_sample) unit_test_sample "age"
              [CStr "29"; CStr "45"; CStr "?"; CStr "60"])
    as (df' & w' & out & v & Hrun & Hout & Hv & Hnum & _);
    [reflexivity | unfold wf_table; compute_done | reflexivity | reflexivity
    | |].
  - repeat (constructor;
              [first [ by (right; left)
                     | right; right; eexists; reflexivity ] |]).
    constructor.
  - by exists df', w', out, v.
Defined.

Lemma date_loop_logs_one_record_per_date_column_witness :
  heap (world_with visits) !! 0%nat = Some visits ∧
  wf_table visits ∧
  "visit_date" ∈ columns visits ∧
  (INFO, MsgDateStandardized "visit_date") ∈ transform_log visits.
Proof.
  split; [reflexivity |]. split; [unfold wf_table; compute_done |].
  split; [compute_done |].
  destruct (date_loop_logs_one_record_per_date_column etl 0
              (world_with visits) visits "visit_date")
    as (df' & w' & s & _ & _ & Hs & Hok & _);
    [reflexivity | unfold wf_table; compute_done | compute_done |].
  apply Hok. split; [reflexivity |]. by eexists.
Defined.

Lemma transform_leaves_store_and_logs_no_error_witness :
  heap (world_with visits) !! 0%nat = Some visits ∧
  ∃ df' w',
    transform etl 0 (world_with visits) = (Ok df', w') ∧
    database w' = ∅.
Proof.
  split; [reflexivity |].
  destruct (transform_leaves_store_and_logs_no_error etl 0
              (world_with visits) visits)
    as (df' & w' & Hrun & Hdb & _); [reflexivity |].
  by exists df', w'.
Defined.

Lemma extract_returns_fetched_table_witness :
  fetch_ucirepo (data_id etl) = Ok sample ∧
  ∃ df w',
    extract etl empty_world = (Ok df, w') ∧
    heap w' !! df = Some sample ∧
    log w' = [(INFO, MsgExtracting); (INFO, MsgExtracted 4 4)].
Proof.
  split; [reflexivity |].
  destruct (extract_returns_fetched_table etl empty_world sample)
    as (df & w' & Hrun & _ & Hout & _ & _ & Hlog); [reflexivity |].
  by exists df, w'.
Defined.

Lemma extract_raises_fetch_error_witness :
  fetch_ucirepo (data_id etl_unknown_dataset)
  = Raised (Exception "DatasetNotFoundError" "unknown dataset") ∧
  ∃ w',
    extract etl_unknown_dataset empty_world
    = (Raised (Exception "DatasetNotFoundError" "unknown dataset"), w') ∧
    heap w' = [] ∧
    database w' = ∅ ∧
    log w' = [(INFO, MsgExtracting)].
Proof.
  split; [reflexivity |].
  apply (extract_raises_fetch_error etl_unknown_dataset empty_world).
  reflexivity.
Defined.

Lemma run_stores_the_transformed_table_witness :
  fetch_ucirepo (data_id etl) = Ok sample ∧
  create_engine (db_uri etl) = Ok (mkEngine (db_uri etl)) ∧
  to_sql_failure (mkEngine (db_uri etl)) (table_name etl)
    (transform_steps sample) = None ∧
  ∃ w',
    run etl empty_world = (Ok (), w') ∧
    database w' !! "heart_disease" = Some (transform_steps sample).
Proof.
  split; [reflexivity |]. split; [reflexivity |]. split; [reflexivity |].
  destruct (run_stores_the_transformed_table etl empty_world sample
              (mkEngine (db_uri etl)))
    as (w' & Hrun & Hdb & _); [reflexivity .. |].
  by exists w'.
Defined.

Lemma run_reports_completion_after_failed_load_witness :
  fetch_ucirepo (data_id etl_unreachable) = Ok sample ∧
  to_sql_failure (mkEngine (db_uri etl_unreachable))
    (table_name etl_unreachable) (transform_steps sample)
  = Some (Exception "OperationalError" "connection refused") ∧
  ∃ w' l,
    run etl_unreachable empty_world = (Ok (), w') ∧
    database w' = ∅ ∧
    log w' = l ++ [(INFO, MsgLoading);
                   (ERROR, MsgLoadFailed
                             (Exception "OperationalError" "connection refused"));
                   (INFO, MsgCompleted)].
Proof.
  split; [reflexivity |]. split; [reflexivity |].
  apply (run_reports_completion_after_failed_load etl_unreachable empty_world
           sample); [reflexivity |].
  right. exists (mkEngine (db_uri etl_unreachable)). split; reflexivity.
Defined.

Lemma run_aborts_on_fetch_error_witness :
  fetch_ucirepo (data_id etl_unknown_dataset)
  = Raised (Exception "DatasetNotFoundError" "unknown dataset") ∧
  ∃ w',
    run etl_unknown_dataset empty_world
    = (Raised (Exception "DatasetNotFoundError" "unknown dataset"), w') ∧
    heap w' = [] ∧
    database w' = ∅ ∧
    log w' = [(INFO, MsgStarting); (INFO, MsgExtracting)].
Proof.
  split; [reflexivity |].
  apply (run_aborts_on_fetch_error etl_unknown_dataset empty_world).
  reflexivity.
Defined.

Lemma load_replaces_the_named_table_witness :
  create_engine (db_uri etl) = Ok (mkEngine (db_uri etl)) ∧
  heap (world_with sample) !! 0%nat = Some sample ∧
  to_sql_failure (mkEngine (db_uri etl)) (table_name etl) sample = None ∧
  ∃ w',
    load etl 0 (world_with sample) = (Ok (), w') ∧
    database w' !! "heart_disease" = Some sample.
Proof.
  split; [reflexivity |]. split; [reflexivity |]. split; [reflexivity |].
  destruct (load_replaces_the_named_table etl 0 (world_with sample) sample
              (mkEngine (db_uri etl)))
    as (w' & Hrun & Hdb & _); [reflexivity .. |].
  by exists w'.
Defined.

Lemma load_last_writer_wins_witness :
  heap two_frames !! 0%nat = Some sample ∧
  heap two_frames !! 1%nat = Some visits ∧
  ∃ w1 w2 w2',
    load etl 0 two_frames = (Ok (), w1) ∧
    load etl 1 w1 = (Ok (), w2) ∧
    load etl 1 two_frames = (Ok (), w2') ∧
    database w2 = database w2'.
Proof.
  split; [reflexivity |]. split; [reflexivity |].
  apply (load_last_writer_wins etl 0 1 two_frames sample visits
           (mkEngine (db_uri etl))); reflexivity.
Defined.

Lemma transform_preserves_well_formedness_witness :
  heap (world_with visits) !! 0%nat = Some visits ∧
  wf_table visits ∧
  ∃ df' w' out,
    transform etl 0 (world_with visits) = (Ok df', w') ∧
    heap w' !! df' = Some out ∧
    wf_table out.
Proof.
  split; [reflexivity |]. split; [unfold wf_table; compute_done |].
  destruct (transform_preserves_well_formedness etl 0 (world_with visits) visits)
    as (df' & w' & out & Hrun & Hout & Hwf & _);
    [reflexivity | unfold wf_table; compute_done |].
  by exists df', w', out.
Defined.
